(** * Relativity app: the physics core and the comparison pipeline

    A shallow embedding of the physics module (the rate functions and the
    body catalog, imported by [src/App.tsx] as [./physics]) and of the
    derived-quantity pipeline of [src/App.tsx] (the [useMemo] chain from the
    inputs to [R], the time conversions and the hue shift), with the
    properties of the specification stated over it.

    Numbers.  A JavaScript [number] is modelled by the type [number] below:
    [NaN], the two infinities, and the finite values, which are taken to be
    real numbers with exact arithmetic.  Rounding, overflow and the sign of
    zero are not modelled (a zero divisor is read as [+0]); the special
    values follow IEEE 754 as the source sees them: division by zero gives an
    infinity or [NaN], the square root of a negative number is [NaN],
    comparisons with [NaN] are false, [Math.max] and [Math.min] propagate
    [NaN].  The statements that quantify over inputs are about this model.

    Module [Float64] is the same program over IEEE 754 binary64, the numbers
    the source computes with; it runs, and the concrete inputs of the
    examples are evaluated in it as well.  Where the two disagree on the
    side of a comparison (a test on a rounded value, a tie between
    neighbouring doubles, an underflow), a statement over the model keeps a
    margin or a bound on the magnitudes, and the disagreement is shown on
    doubles. *)

From Stdlib Require Import Reals Lra Bool String List.
From Stdlib Require PrimFloat FloatOps SpecFloat.
Import ListNotations.

Open Scope R_scope.

(** ** Decidable tests on the reals, as booleans *)

Definition Rltb (x y : R) : bool := if Rlt_dec x y then true else false.
Definition Rleb (x y : R) : bool := if Rle_dec x y then true else false.
Definition Reqb (x y : R) : bool := if Req_dec_T x y then true else false.

(** The sign of a real: [1], [-1] or [0]. *)
Definition Rsign (x : R) : R :=
  if Rltb 0 x then 1 else if Rltb x 0 then -1 else 0.

(** ** JavaScript numbers *)

Inductive number : Type :=
| NaN
| PInf
| NInf
| Fin (x : R).

Module Num.

(** [-a] *)
Definition opp (a : number) : number :=
  match a with
  | NaN => NaN
  | PInf => NInf
  | NInf => PInf
  | Fin x => Fin (- x)
  end.

(** [a + b] *)
Definition add (a b : number) : number :=
  match a, b with
  | NaN, _ | _, NaN => NaN
  | PInf, NInf | NInf, PInf => NaN
  | PInf, _ | _, PInf => PInf
  | NInf, _ | _, NInf => NInf
  | Fin x, Fin y => Fin (x + y)
  end.

(** [a - b] *)
Definition sub (a b : number) : number := add a (opp b).

(** An infinity of sign [pos] times the finite value [y]. *)
Definition inf_times (pos : bool) (y : R) : number :=
  if Rltb 0 y then (if pos then PInf else NInf)
  else if Rltb y 0 then (if pos then NInf else PInf)
  else NaN.

(** [a * b] *)
Definition mul (a b : number) : number :=
  match a, b with
  | NaN, _ | _, NaN => NaN
  | Fin x, Fin y => Fin (x * y)
  | PInf, PInf | NInf, NInf => PInf
  | PInf, NInf | NInf, PInf => NInf
  | PInf, Fin y | Fin y, PInf => inf_times true y
  | NInf, Fin y | Fin y, NInf => inf_times false y
  end.

(** [a / b] *)
Definition div (a b : number) : number :=
  match a, b with
  | NaN, _ | _, NaN => NaN
  | Fin x, Fin y =>
      if Reqb y 0
      then (if Rltb 0 x then PInf else if Rltb x 0 then NInf else NaN)
      else Fin (x / y)
  | Fin _, PInf | Fin _, NInf => Fin 0
  | PInf, Fin y => if Rltb y 0 then NInf else PInf
  | NInf, Fin y => if Rltb y 0 then PInf else NInf
  | _, _ => NaN
  end.

(** [a <= b] *)
Definition le (a b : number) : bool :=
  match a, b with
  | NaN, _ | _, NaN => false
  | NInf, _ | _, PInf => true
  | Fin x, Fin y => Rleb x y
  | _, _ => false
  end.

(** [a < b] *)
Definition lt (a b : number) : bool :=
  match a, b with
  | NaN, _ | _, NaN => false
  | PInf, _ | _, NInf => false
  | Fin x, Fin y => Rltb x y
  | _, _ => true
  end.

(** [a >= b] *)
Definition ge (a b : number) : bool := le b a.

(** [a === b] *)
Definition seq (a b : number) : bool :=
  match a, b with
  | PInf, PInf | NInf, NInf => true
  | Fin x, Fin y => Reqb x y
  | _, _ => false
  end.

(** [Math.sqrt] *)
Definition sqrt (a : number) : number :=
  match a with
  | NaN | NInf => NaN
  | PInf => PInf
  | Fin x => if Rltb x 0 then NaN else Fin (R_sqrt.sqrt x)
  end.

(** [Math.abs] *)
Definition abs (a : number) : number :=
  match a with
  | NaN => NaN
  | PInf | NInf => PInf
  | Fin x => Fin (Rabs x)
  end.

(** [Math.max] of two arguments *)
Definition max (a b : number) : number :=
  match a, b with
  | NaN, _ | _, NaN => NaN
  | _, _ => if le a b then b else a
  end.

(** [Math.min] of two arguments *)
Definition min (a b : number) : number :=
  match a, b with
  | NaN, _ | _, NaN => NaN
  | _, _ => if le a b then a else b
  end.

(** [Math.sign] *)
Definition sign (a : number) : number :=
  match a with
  | NaN => NaN
  | PInf => Fin 1
  | NInf => Fin (-1)
  | Fin x => Fin (Rsign x)
  end.

(** [Math.log10] *)
Definition log10 (a : number) : number :=
  match a with
  | NaN | NInf => NaN
  | PInf => PInf
  | Fin x =>
      if Rltb x 0 then NaN
      else if Reqb x 0 then NInf
      else Fin (ln x / ln 10)
  end.

(** [Number.isFinite] *)
Definition isFinite (a : number) : bool :=
  match a with
  | Fin _ => true
  | _ => false
  end.

End Num.

Declare Scope num_scope.
Delimit Scope num_scope with num.
Bind Scope num_scope with number.
Infix "+" := Num.add : num_scope.
Infix "-" := Num.sub : num_scope.
Infix "*" := Num.mul : num_scope.
Infix "/" := Num.div : num_scope.
Infix ">=?" := Num.ge (at level 70) : num_scope.
Infix "===" := Num.seq (at level 70) : num_scope.

(** ** The physics module *)

Module Physics.

(** The literals of the source, as reals. *)
Definition G_value : R := 6.6743e-11.
Definition C_value : R := 299792458.
Definition M_SUN_value : R := 1.98847e30.
Definition R_SUN_value : R := 6.957e8.

Definition G : number := Fin G_value.
Definition C : number := Fin C_value.
Definition M_SUN : number := Fin M_SUN_value.
Definition R_SUN : number := Fin R_SUN_value.

Inductive BodyKind : Type := normal | bh.

(** [kind] is an optional field: [None] is the absent field. *)
Record Body : Type := mkBody {
  id : string;
  name : string;
  massKg : number;
  radiusM : number;
  kind : option BodyKind
}.

Definition schwarzschildRadius (massKg : number) : number :=
  ((Fin 2 * G * massKg) / (C * C))%num.

Inductive Mode : Type := surface | staticAltitude | circularOrbit.

Definition BODIES : list Body :=
  [ mkBody "earth" "地球" (Fin 5.972e24) (Fin 6.371e6) None;
    mkBody "moon" "月" (Fin 7.347673e22) (Fin 1.7374e6) None;
    mkBody "mars" "火星" (Fin 6.4171e23) (Fin 3.3895e6) None;
    mkBody "venus" "金星" (Fin 4.8675e24) (Fin 6.0518e6) None;
    mkBody "merc" "水星" (Fin 3.3011e23) (Fin 2.4397e6) None;
    mkBody "jup" "木星" (Fin 1.89813e27) (Fin 6.9911e7) None;
    mkBody "sun" "太陽" (Fin 1.98847e30) (Fin 6.9634e8) None;
    mkBody "ns" "中性子星 (1.4 M☉, R=12km)"
      (Fin 1.4 * M_SUN)%num (Fin 12000) None;
    mkBody "r136a1" "R136a1（~200 M☉, ~30 R☉）"
      (Fin 200 * M_SUN)%num (Fin 30 * R_SUN)%num None;
    mkBody "bh10" "ブラックホール（10 M☉）"
      (Fin 10 * M_SUN)%num (Fin 3000) (Some bh);
    mkBody "sgrA" "Sgr A*（銀河中心 ~4.3×10^6 M☉）"
      (Fin 4.3e6 * M_SUN)%num (Fin 1000000) (Some bh) ].

Definition phi (massKg r : number) : number :=
  ((Num.opp G * massKg) / r)%num.

Definition weakRate (phiVal v : number) : number :=
  (Fin 1 + phiVal / (C * C) - (v * v) / (Fin 2 * C * C))%num.

Definition circularOrbitSpeed (massKg r : number) : number :=
  Num.sqrt ((G * massKg) / r)%num.

Definition schwarzschildStaticRate (massKg r : number) : number :=
  let x := ((Fin 2 * G * massKg) / (r * C * C))%num in
  if (x >=? Fin 1)%num then Fin 0
  else Num.sqrt (Fin 1 - x)%num.

End Physics.

(** ** The derived-quantity pipeline of [src/App.tsx] *)

Module App.
Import Physics.

(** [BODIES.find((b) => b.id === bodyId)] *)
Definition find_body (bodyId : string) : option Body :=
  List.find (fun b => String.eqb (id b) bodyId) BODIES.

(** The non-null assertion [e!].  On [undefined] the field accesses that
    follow would throw; the model reads them as [NaN].  The catalog makes
    that branch dead for ["earth"] (lemma [earth_found]). *)
Definition undefined_body : Body := mkBody "" "" NaN NaN None.

Definition nonNull (o : option Body) : Body :=
  match o with
  | Some b => b
  | None => undefined_body
  end.

Definition earth : Body := nonNull (find_body "earth").

Definition fEarth : number :=
  weakRate (phi (massKg earth) (radiusM earth)) (Fin 0).

(** The state of the component ([simple] only selects the display). *)
Record Inputs : Type := mkInputs {
  bodyId : string;
  mode : Mode;
  altKm : number;
  useExactStatic : bool;
  simple : bool;
  rsMul : number
}.

Definition initial : Inputs :=
  mkInputs "earth" surface (Fin 0) false true (Fin 2.5).

Definition hueShiftFromRatio (Ratio : number) : number :=
  let d := (Ratio - Fin 1)%num in
  let s := Num.min (Fin 1) (Num.sqrt (Num.abs d) * Fin 2e4)%num in
  ((if (d >=? Fin 0)%num then Fin 1 else Fin (-1)) * s)%num.

(** The chain of derived values, each a function of the values it reads
    (its [useMemo] dependencies). *)
Section Pipeline.
Variable body : Body.
Variable mode : Mode.
Variable altKm : number.
Variable useExactStatic : bool.
Variable rsMul : number.

Definition isBH : bool :=
  match kind body with
  | Some bh => true
  | _ => false
  end.

Definition r : number :=
  if isBH then
    let Rs := schwarzschildRadius (massKg body) in
    (Rs * Num.max rsMul (Fin 1.0001))%num
  else
    match mode with
    | surface => radiusM body
    | _ => (radiusM body + altKm * Fin 1000)%num
    end.

Definition v : number :=
  if isBH then Fin 0
  else
    match mode with
    | circularOrbit => circularOrbitSpeed (massKg body) r
    | _ => Fin 0
    end.

Definition fBody : number :=
  if isBH then schwarzschildStaticRate (massKg body) r
  else if useExactStatic && (v === Fin 0)%num
       then schwarzschildStaticRate (massKg body) r
       else weakRate (phi (massKg body) r) v.

(** [R] in the source; renamed, [R] being the type of the reals here. *)
Definition R_ratio : number := (fBody / fEarth)%num.

Definition perDay : number := ((R_ratio - Fin 1) * Fin 86400)%num.

Definition earth1s_to_body : number := R_ratio.

Definition body1s_to_earth : number :=
  if (R_ratio === Fin 0)%num then PInf else (Fin 1 / R_ratio)%num.

Definition earth1h_to_body : number := (R_ratio * Fin 3600)%num.

Definition body1h_to_earth : number :=
  if (R_ratio === Fin 0)%num then PInf else (Fin 3600 / R_ratio)%num.

Definition hueShift : number := hueShiftFromRatio R_ratio.

End Pipeline.

(** The values shown for a state of the component. *)
Definition body_of (i : Inputs) : Body := nonNull (find_body (bodyId i)).

(** The [useEffect] that follows a change of [isBH]. *)
Definition onIsBHChange (i : Inputs) : Inputs :=
  if isBH (body_of i)
  then mkInputs (bodyId i) staticAltitude (altKm i) (useExactStatic i)
         (simple i) (Num.max (rsMul i) (Fin 2.0))
  else i.

(** The GPS preset. *)
Definition setGPS (i : Inputs) : Inputs :=
  mkInputs "earth" circularOrbit (Fin 20200) false (simple i) (rsMul i).

(** *** What the component shows *)

(** The number-to-text conversions of the source are kept as calls: the
    number each is applied to and its digits argument. *)
Inductive Rendered : Type :=
| toFixed (x : number) (fractionDigits : nat)
| toExponential (x : number) (fractionDigits : nat)
| toLocaleString (x : number) (maximumFractionDigits : nat)
| dash.

(** A template string: a rendered number followed by a unit. *)
Record Text : Type := mkText {
  rendered : Rendered;
  unit : string
}.

(** [fmt], with its default [d = 6] made explicit by the callers. *)
Definition fmt (x : number) (d : nat) : Text :=
  if Num.isFinite x then mkText (toLocaleString x d) ""
  else mkText dash "".

Definition fmtPerDay (secPerDay : number) : Text :=
  let a := Num.abs secPerDay in
  if (a >=? Fin 1)%num then mkText (toFixed secPerDay 3) " s/day"
  else if (a >=? Fin 1e-3)%num
    then mkText (toFixed (secPerDay * Fin 1e3)%num 3) " ms/day"
  else if (a >=? Fin 1e-6)%num
    then mkText (toFixed (secPerDay * Fin 1e6)%num 3) " µs/day"
  else if (a >=? Fin 1e-9)%num
    then mkText (toFixed (secPerDay * Fin 1e9)%num 3) " ns/day"
  else mkText (toExponential secPerDay 2) " s/day".

Definition fmtSec (sec : number) : Text :=
  let a := Num.abs sec in
  if (a >=? Fin 1)%num then mkText (toFixed sec 6) " s"
  else if (a >=? Fin 1e-3)%num
    then mkText (toFixed (sec * Fin 1e3)%num 3) " ms"
  else if (a >=? Fin 1e-6)%num
    then mkText (toFixed (sec * Fin 1e6)%num 3) " µs"
  else if (a >=? Fin 1e-9)%num
    then mkText (toFixed (sec * Fin 1e9)%num 3) " ns"
  else mkText (toExponential sec 2) " s".

(** The line under [R]: faster than Earth, slower, or about the same. *)
Inductive Verdict : Type := faster | slower | same.

Section Display.
Variable body : Body.
Variable mode : Mode.
Variable altKm : number.
Variable useExactStatic : bool.
Variable rsMul : number.

(** [R > 1 ? ... : R < 1 ? ... : ...] *)
Definition verdict : Verdict :=
  if Num.lt (Fin 1) (R_ratio body mode altKm useExactStatic rsMul) then faster
  else if Num.lt (R_ratio body mode altKm useExactStatic rsMul) (Fin 1)
       then slower
       else same.

(** [Number.isFinite(body1s_to_earth) ? fmtSec(body1s_to_earth) : "—"] *)
Definition body1s_shown : Text :=
  if Num.isFinite (body1s_to_earth body mode altKm useExactStatic rsMul)
  then fmtSec (body1s_to_earth body mode altKm useExactStatic rsMul)
  else mkText dash "".

(** The exact-formula checkbox: its [checked] and [disabled] attributes. *)
Definition exactChecked : bool :=
  if isBH body then true else useExactStatic.

Definition exactDisabled : bool :=
  isBH body || negb (v body mode altKm rsMul === Fin 0)%num.

End Display.

End App.

(** ** [src/visuals/SpacetimeBackground.tsx]: the lensing strength *)

Module Visuals.
Import Physics.

Definition strengthFromMassRadius (massKg radiusM : number) : number :=
  let rs := ((Fin 2 * G * massKg) / (C * C))%num in
  let ratio := (rs / Num.max radiusM (Fin 1e-3))%num in
  let l := Num.log10 (Num.max ratio (Fin 1e-20)) in
  let lo := Fin (-9.5) in
  let hi := Fin (-5.0) in
  let s := ((l - lo) / (hi - lo))%num in
  Num.min (Fin 1) (Num.max (Fin 0) s).

(** The strength the component passes to the shader: that of the body's
    mass at the resolved radius. *)
Definition strength (body : Body) (mode : Mode) (altKm rsMul : number)
  : number :=
  strengthFromMassRadius (massKg body) (App.r body mode altKm rsMul).

End Visuals.

(** ** The same program in double precision *)

Module Float64.
Import PrimFloat.
#[local] Set Warnings "-inexact-float".
#[local] Open Scope float_scope.

(** [Math.max] and [Math.min] of two arguments (the order of [-0] and [+0]
    is not distinguished). *)
Definition max (a b : float) : float :=
  if is_nan a || is_nan b then nan else if a <? b then b else a.

Definition min (a b : float) : float :=
  if is_nan a || is_nan b then nan else if a <? b then a else b.

Definition G : float := 6.6743e-11.
Definition C : float := 299792458.
Definition M_SUN : float := 1.98847e30.
Definition R_SUN : float := 6.957e8.

Record Body : Type := mkBody {
  id : string;
  massKg : float;
  radiusM : float;
  kind : option Physics.BodyKind
}.

Definition schwarzschildRadius (massKg : float) : float :=
  (2 * G * massKg) / (C * C).

(** The catalog, without the display names. *)
Definition BODIES : list Body :=
  [ mkBody "earth" 5.972e24 6.371e6 None;
    mkBody "moon" 7.347673e22 1.7374e6 None;
    mkBody "mars" 6.4171e23 3.3895e6 None;
    mkBody "venus" 4.8675e24 6.0518e6 None;
    mkBody "merc" 3.3011e23 2.4397e6 None;
    mkBody "jup" 1.89813e27 6.9911e7 None;
    mkBody "sun" 1.98847e30 6.9634e8 None;
    mkBody "ns" (1.4 * M_SUN) 12000 None;
    mkBody "r136a1" (200 * M_SUN) (30 * R_SUN) None;
    mkBody "bh10" (10 * M_SUN) 3000 (Some Physics.bh);
    mkBody "sgrA" (4.3e6 * M_SUN) 1000000 (Some Physics.bh) ].

Definition phi (massKg r : float) : float := (- G * massKg) / r.

Definition weakRate (phiVal v : float) : float :=
  1 + phiVal / (C * C) - (v * v) / (2 * C * C).

Definition circularOrbitSpeed (massKg r : float) : float :=
  sqrt ((G * massKg) / r).

Definition schwarzschildStaticRate (massKg r : float) : float :=
  let x := (2 * G * massKg) / (r * C * C) in
  if 1 <=? x then 0 else sqrt (1 - x).

Definition find_body (bodyId : string) : option Body :=
  List.find (fun b => String.eqb (id b) bodyId) BODIES.

Definition nonNull (o : option Body) : Body :=
  match o with
  | Some b => b
  | None => mkBody "" nan nan None
  end.

Definition earth : Body := nonNull (find_body "earth").

Definition fEarth : float := weakRate (phi (massKg earth) (radiusM earth)) 0.

Definition hueShiftFromRatio (Ratio : float) : float :=
  let d := Ratio - 1 in
  let s := min 1 (sqrt (abs d) * 2e4) in
  (if 0 <=? d then 1 else -1) * s.

Section Pipeline.
Variable body : Body.
Variable mode : Physics.Mode.
Variable altKm : float.
Variable useExactStatic : bool.
Variable rsMul : float.

Definition isBH : bool :=
  match kind body with
  | Some Physics.bh => true
  | _ => false
  end.

Definition r : float :=
  if isBH then
    let Rs := schwarzschildRadius (massKg body) in
    Rs * max rsMul 1.0001
  else
    match mode with
    | Physics.surface => radiusM body
    | _ => radiusM body + altKm * 1000
    end.

Definition v : float :=
  if isBH then 0
  else
    match mode with
    | Physics.circularOrbit => circularOrbitSpeed (massKg body) r
    | _ => 0
    end.

Definition fBody : float :=
  if isBH then schwarzschildStaticRate (massKg body) r
  else if useExactStatic && (v =? 0)
       then schwarzschildStaticRate (massKg body) r
       else weakRate (phi (massKg body) r) v.

Definition R_ratio : float := fBody / fEarth.

Definition perDay : float := (R_ratio - 1) * 86400.

Definition body1s_to_earth : float :=
  if R_ratio =? 0 then infinity else 1 / R_ratio.

Definition hueShift : float := hueShiftFromRatio R_ratio.

End Pipeline.

Definition bh10 : Body := nonNull (find_body "bh10").
Definition sun : Body := nonNull (find_body "sun").

End Float64.

(** ** Definitions used to state the properties *)

(** The hue shift as the specification words it: the sign of [R - 1] times
    [min(1, sqrt(|R - 1|) * 2e4)]. *)
Definition hueShift_spec (Ratio : number) : number :=
  (Num.sign (Ratio - Fin 1)
   * Num.min (Fin 1) (Num.sqrt (Num.abs (Ratio - Fin 1)) * Fin 2e4))%num.

(** [lo <= h <= hi], as the source would test it. *)
Definition within (lo hi h : number) : bool := Num.le lo h && Num.le h hi.

(** The formula-selection policy as the specification words it: the exact
    static formula for a black-hole-classified body, or when the exact
    formula was requested and the speed is zero; the weak-field formula in
    every other case. *)
Inductive FormulaChoice : Type := ExactStatic | WeakField.

Definition selectFormula (isBlackHole requestedExact : bool) (speed : number)
  : FormulaChoice :=
  if isBlackHole then ExactStatic
  else if requestedExact && (speed === Fin 0)%num then ExactStatic
       else WeakField.

(** A body as the data model describes it: finite positive mass and radius. *)
Definition wf_body (b : Physics.Body) : Prop :=
  exists m rad : R,
    Physics.massKg b = Fin m /\ Physics.radiusM b = Fin rad /\ 0 < m /\ 0 < rad.

(** Catalog entries used in the examples. *)
Definition bh10 : Physics.Body := App.nonNull (App.find_body "bh10").
Definition sun : Physics.Body := App.nonNull (App.find_body "sun").

(** The ratio [x] of the source, on reals: the Schwarzschild radius over [r]. *)
Definition x_of (m r : R) : R :=
  2 * Physics.G_value * m / (r * Physics.C_value * Physics.C_value).

(** Earth's reference rate, as a real. *)
Definition fEarth_value : R :=
  1 + (- Physics.G_value * 5.972e24 / 6.371e6)
      / (Physics.C_value * Physics.C_value)
  - 0 * 0 / (2 * Physics.C_value * Physics.C_value).

(** The Schwarzschild radius of a finite mass, as a real. *)
Definition Rs_value (m : R) : R :=
  2 * Physics.G_value * m / (Physics.C_value * Physics.C_value).

(** A catalog entry against its own horizon. *)
Definition radius_vs_horizon (b : Physics.Body) : Prop :=
  exists m rad : R,
    Physics.massKg b = Fin m /\ Physics.radiusM b = Fin rad
    /\ 0 < m /\ 0 < rad
    /\ (App.isBH b = false -> Rs_value m < rad)
    /\ (App.isBH b = true -> rad < Rs_value m).

(** The band of magnitudes a value falls in, and what is shown for it. *)
Definition shown_in_band (suffixes : list string) (digits : nat)
  (t : App.Text) (x : R) : Prop :=
  (1 <= Rabs x
   /\ t = App.mkText (App.toFixed (Fin x) digits) (nth 0 suffixes ""%string))
  \/ (1e-3 <= Rabs x < 1
      /\ t = App.mkText (App.toFixed (Fin (x * 1e3)) 3)
               (nth 1 suffixes ""%string))
  \/ (1e-6 <= Rabs x < 1e-3
      /\ t = App.mkText (App.toFixed (Fin (x * 1e6)) 3)
               (nth 2 suffixes ""%string))
  \/ (1e-9 <= Rabs x < 1e-6
      /\ t = App.mkText (App.toFixed (Fin (x * 1e9)) 3)
               (nth 3 suffixes ""%string))
  \/ (Rabs x < 1e-9
      /\ t = App.mkText (App.toExponential (Fin x) 2)
               (nth 0 suffixes ""%string)).

(** The ratio the strength is computed from: the Schwarzschild radius over
    the radius, both floored as in the source. *)
Definition lens_ratio (m rad : R) : R :=
  Rmax (Rs_value m / Rmax rad 1e-3) 1e-20.

(** The strength before it is clamped to [[0, 1]]. *)
Definition lens_level (m rad : R) : R :=
  (ln (lens_ratio m rad) / ln 10 - -9.5) / (-5.0 - -9.5).

(** What the clamp leaves of [x] for a black hole: the inverse of
    [max(k, 1.0001)], as a real. *)
Definition clamp_inverse (k : number) : R :=
  match k with
  | PInf => 0
  | Fin x => / Rmax x 1.0001
  | _ => / 1.0001
  end.

(** The real number a double stands for ([0] for [NaN] and the
    infinities). *)
Definition double_value (f : PrimFloat.float) : R :=
  match FloatOps.Prim2SF f with
  | SpecFloat.S754_finite s m e =>
      let v := if (0 <=? e)%Z
               then IZR (Zpos m) * IZR (2 ^ e)
               else IZR (Zpos m) / IZR (2 ^ (- e)) in
      if s then - v else v
  | _ => 0
  end.

(** Two masses, as doubles, each with the radius [schwarzschildRadius]
    returns for it: 59 solar masses, and the mass of Mars. *)
Module Boundary.
Import PrimFloat.
#[local] Open Scope float_scope.

Definition mass59 : float := 59 * Float64.M_SUN.
Definition horizon59 : float := Float64.schwarzschildRadius mass59.
Definition massMars : float :=
  Float64.massKg (Float64.nonNull (Float64.find_body "mars")).
Definition horizonMars : float := Float64.schwarzschildRadius massMars.

End Boundary.

(** Masses, as doubles, on which [schwarzschildRadius] does not separate
    neighbours: the solar mass and the next double above it, and two masses
    whose radius underflows. *)
Module Ties.
Import PrimFloat.
#[local] Set Warnings "-inexact-float".
#[local] Open Scope float_scope.

Definition sunMassUp : float := next_up Float64.M_SUN.
Definition tinyMass : float := 1e-300.
Definition tinyMass2 : float := 2e-300.

End Ties.

(** ** Evaluating the tests on the reals *)

Lemma Rltb_true (x y : R) : x < y -> Rltb x y = true.
Proof. intros H; unfold Rltb; destruct (Rlt_dec x y); [reflexivity | contradiction]. Qed.

Lemma Rltb_false (x y : R) : y <= x -> Rltb x y = false.
Proof. intros H; unfold Rltb; destruct (Rlt_dec x y); [lra | reflexivity]. Qed.

Lemma Rleb_true (x y : R) : x <= y -> Rleb x y = true.
Proof. intros H; unfold Rleb; destruct (Rle_dec x y); [reflexivity | contradiction]. Qed.

Lemma Rleb_false (x y : R) : y < x -> Rleb x y = false.
Proof. intros H; unfold Rleb; destruct (Rle_dec x y); [lra | reflexivity]. Qed.

Lemma Reqb_true (x y : R) : x = y -> Reqb x y = true.
Proof. intros H; unfold Reqb; destruct (Req_dec_T x y); [reflexivity | contradiction]. Qed.

Lemma Reqb_false (x y : R) : x <> y -> Reqb x y = false.
Proof. intros H; unfold Reqb; destruct (Req_dec_T x y); [contradiction | reflexivity]. Qed.

Lemma Rltb_spec (x y : R) : Rltb x y = true <-> x < y.
Proof.
  unfold Rltb; destruct (Rlt_dec x y); split; intros; try assumption;
    try reflexivity; try discriminate; contradiction.
Qed.

Lemma Rleb_spec (x y : R) : Rleb x y = true <-> x <= y.
Proof.
  unfold Rleb; destruct (Rle_dec x y); split; intros; try assumption;
    try reflexivity; try discriminate; contradiction.
Qed.

Lemma Reqb_spec (x y : R) : Reqb x y = true <-> x = y.
Proof.
  unfold Reqb; destruct (Req_dec_T x y); split; intros; try assumption;
    try reflexivity; try discriminate; contradiction.
Qed.

(** Settle every test on reals in the goal that [lra] can settle. *)
Ltac Rtests :=
  repeat match goal with
    | |- context [Rltb ?a ?b] =>
        first [ rewrite (Rltb_true a b) by lra | rewrite (Rltb_false a b) by lra ]
    | |- context [Rleb ?a ?b] =>
        first [ rewrite (Rleb_true a b) by lra | rewrite (Rleb_false a b) by lra ]
    | |- context [Reqb ?a ?b] =>
        first [ rewrite (Reqb_true a b) by lra | rewrite (Reqb_false a b) by lra ]
    end.

(** ** The constants *)

Lemma G_pos : 0 < Physics.G_value.
Proof. unfold Physics.G_value; lra. Qed.

Lemma C_pos : 0 < Physics.C_value.
Proof. unfold Physics.C_value; lra. Qed.

Lemma CC_pos : 0 < Physics.C_value * Physics.C_value.
Proof. pose proof C_pos; nra. Qed.

(** ** Arithmetic on finite numbers *)

Lemma div_Fin (x y : R) : y <> 0 -> (Fin x / Fin y)%num = Fin (x / y).
Proof. intros H; simpl; rewrite Reqb_false by assumption; reflexivity. Qed.

Lemma sqrt_Fin (x : R) : 0 <= x -> Num.sqrt (Fin x) = Fin (sqrt x).
Proof. intros H; simpl; rewrite Rltb_false by assumption; reflexivity. Qed.

Lemma max_Fin (x y : R) : Num.max (Fin x) (Fin y) = Fin (Rmax x y).
Proof.
  unfold Num.max, Num.le, Rleb, Rmax.
  destruct (Rle_dec x y); reflexivity.
Qed.

Lemma min_Fin (x y : R) : Num.min (Fin x) (Fin y) = Fin (Rmin x y).
Proof.
  unfold Num.min, Num.le, Rleb, Rmin.
  destruct (Rle_dec x y); reflexivity.
Qed.

(** ** Horizon geometry *)

Lemma schwarzschildRadius_Fin (m : R) :
  Physics.schwarzschildRadius (Fin m) = Fin (Rs_value m).
Proof.
  unfold Physics.schwarzschildRadius, Physics.G, Physics.C, Rs_value.
  simpl Num.mul.
  apply div_Fin.
  pose proof CC_pos; lra.
Qed.

(** C6 (amended). [schwarzschildRadius] never decreases with the mass: for
    masses [0 < m <= m'] the radius of [m] is at most the radius of [m'].
    For a mass of at least 1e-100 the radius is [2*G*m/C^2] in exact
    arithmetic, a positive value, and it is strictly below the radius of
    every mass [m'] that exceeds [m] by a relative 1e-15 or more. *)
Theorem schwarzschildRadius_nondecreasing (m m' : R) :
  0 < m -> m <= m' ->
  Num.le (Physics.schwarzschildRadius (Fin m))
         (Physics.schwarzschildRadius (Fin m')) = true
  /\ (1e-100 <= m ->
      Physics.schwarzschildRadius (Fin m)
      = Fin (2 * Physics.G_value * m / (Physics.C_value ^ 2))
      /\ Num.lt (Fin 0) (Physics.schwarzschildRadius (Fin m)) = true
      /\ (m * (1 + 1e-15) <= m' ->
          Num.lt (Physics.schwarzschildRadius (Fin m))
                 (Physics.schwarzschildRadius (Fin m')) = true)).
Proof.
  intros Hm Hle. rewrite !schwarzschildRadius_Fin. unfold Rs_value.
  pose proof CC_pos as HC. pose proof G_pos as HG.
  assert (Hinv : 0 < / (Physics.C_value * Physics.C_value))
    by (apply Rinv_0_lt_compat; exact HC).
  split; [| intros Hbig; repeat split].
  - simpl. apply Rleb_true. unfold Rdiv.
    apply Rmult_le_compat_r; [lra | nra].
  - f_equal. simpl; f_equal; ring.
  - simpl. apply Rltb_true. unfold Rdiv.
    apply Rmult_lt_0_compat; [nra | exact Hinv].
  - intros Hgap. simpl. apply Rltb_true. unfold Rdiv.
    apply Rmult_lt_compat_r; [exact Hinv | nra].
Qed.

Lemma schwarzschildRadius_nondecreasing_witness :
  Num.le (Physics.schwarzschildRadius (Fin 5.972e24))
         (Physics.schwarzschildRadius (Fin 1.98847e30)) = true
  /\ Physics.schwarzschildRadius (Fin 5.972e24)
     = Fin (2 * Physics.G_value * 5.972e24 / (Physics.C_value ^ 2))
  /\ Num.lt (Physics.schwarzschildRadius (Fin 5.972e24))
            (Physics.schwarzschildRadius (Fin 1.98847e30)) = true.
Proof.
  destruct (schwarzschildRadius_nondecreasing 5.972e24 1.98847e30)
    as (Hle & Hbig); [lra | lra |].
  destruct Hbig as (Heq & _ & Hlt); [lra |].
  repeat split; [exact Hle | exact Heq | apply Hlt; lra].
Defined.

(** C6, as stated, fails on the doubles the code computes with: the solar
    mass and the next double above it have the same Schwarzschild radius,
    and so have the positive masses 1e-300 < 2e-300, whose radius
    underflows to [0]. *)
Lemma schwarzschildRadius_doubles_tie :
  (PrimFloat.ltb PrimFloat.zero Float64.M_SUN = true
   /\ PrimFloat.ltb Float64.M_SUN Ties.sunMassUp = true
   /\ PrimFloat.ltb (Float64.schwarzschildRadius Float64.M_SUN)
        (Float64.schwarzschildRadius Ties.sunMassUp) = false
   /\ PrimFloat.eqb (Float64.schwarzschildRadius Float64.M_SUN)
        (Float64.schwarzschildRadius Ties.sunMassUp) = true)
  /\ (PrimFloat.ltb PrimFloat.zero Ties.tinyMass = true
      /\ PrimFloat.ltb Ties.tinyMass Ties.tinyMass2 = true
      /\ PrimFloat.ltb (Float64.schwarzschildRadius Ties.tinyMass)
           (Float64.schwarzschildRadius Ties.tinyMass2) = false
      /\ PrimFloat.eqb (Float64.schwarzschildRadius Ties.tinyMass)
           PrimFloat.zero = true
      /\ PrimFloat.eqb (Float64.schwarzschildRadius Ties.tinyMass2)
           PrimFloat.zero = true).
Proof. vm_compute. repeat split. Qed.

(** ** The exact static rate *)

Lemma schwarzschildStaticRate_Fin (m r : R) :
  r <> 0 ->
  Physics.schwarzschildStaticRate (Fin m) (Fin r)
  = if Rleb 1 (x_of m r) then Fin 0
    else Num.sqrt (Fin (1 - x_of m r)).
Proof.
  intros Hr. unfold Physics.schwarzschildStaticRate, Physics.G, Physics.C.
  simpl Num.mul.
  rewrite div_Fin.
  - reflexivity.
  - pose proof C_pos as HC.
    intros H0. apply Rmult_integral in H0 as [H0 | H0]; [| lra].
    apply Rmult_integral in H0 as [H0 | H0]; [contradiction | lra].
Qed.

Lemma x_of_pos (m r : R) : 0 < m -> 0 < r -> 0 < x_of m r.
Proof.
  intros Hm Hr. unfold x_of.
  pose proof C_pos as HC. pose proof G_pos as HG.
  apply Rdiv_lt_0_compat; [nra |].
  apply Rmult_lt_0_compat; [apply Rmult_lt_0_compat |]; assumption.
Qed.

(** The two branches on the reals, where [x] is not rounded: for a positive
    mass and radius, [0] when [x >= 1] and [sqrt (1 - x)] otherwise. *)
Lemma schwarzschildStaticRate_real_cases (m r : R) :
  0 < m -> 0 < r ->
  let x := 2 * Physics.G_value * m / (r * Physics.C_value ^ 2) in
  (1 <= x -> Physics.schwarzschildStaticRate (Fin m) (Fin r) = Fin 0)
  /\ (x < 1 ->
      Physics.schwarzschildStaticRate (Fin m) (Fin r) = Fin (sqrt (1 - x))
      /\ 0 < sqrt (1 - x) <= 1).
Proof.
  intros Hm Hr x.
  assert (Hx : x = x_of m r).
  { unfold x, x_of. f_equal. simpl. ring. }
  pose proof (x_of_pos m r Hm Hr) as Hpos.
  rewrite schwarzschildStaticRate_Fin by lra.
  rewrite Hx. split.
  - intros H1. rewrite Rleb_true by assumption. reflexivity.
  - intros H1. rewrite Rleb_false by assumption.
    rewrite sqrt_Fin by lra. split; [reflexivity |]. split.
    + apply sqrt_lt_R0; lra.
    + rewrite <- sqrt_1 at 2. apply sqrt_le_1_alt; lra.
Qed.

(** C1 (amended). For every mass [m > 0] and radius [r > 0], with
    [x = 2*G*m/(r*C^2)] in exact arithmetic: [schwarzschildStaticRate m r]
    is a value in [[0, 1]]; it is exactly [0] when [x >= 1 + 1e-15]; when
    [x <= 1 - 1e-15] it is [sqrt (1 - x)], a value in [(0, 1]].  Within
    1e-15 of [x = 1] the branch is the one the rounded [x] selects. *)
Theorem schwarzschildStaticRate_branches (m r : R) :
  0 < m -> 0 < r ->
  let x := 2 * Physics.G_value * m / (r * Physics.C_value ^ 2) in
  (exists f : R,
     Physics.schwarzschildStaticRate (Fin m) (Fin r) = Fin f /\ 0 <= f <= 1)
  /\ (1 + 1e-15 <= x ->
      Physics.schwarzschildStaticRate (Fin m) (Fin r) = Fin 0)
  /\ (x <= 1 - 1e-15 ->
      Physics.schwarzschildStaticRate (Fin m) (Fin r) = Fin (sqrt (1 - x))
      /\ 0 < sqrt (1 - x) <= 1).
Proof.
  intros Hm Hr x.
  destruct (schwarzschildStaticRate_real_cases m r Hm Hr) as [Hin Hout].
  fold x in Hin, Hout. repeat split.
  - destruct (Rle_dec 1 x) as [H1 | H1].
    + exists 0. split; [apply Hin; exact H1 | lra].
    + destruct (Hout ltac:(lra)) as [Heq Hrange].
      exists (sqrt (1 - x)). split; [exact Heq | lra].
  - intros H1. apply Hin. lra.
  - apply Hout. lra.
  - apply Hout. lra.
  - apply Hout. lra.
Qed.

Lemma schwarzschildStaticRate_branches_witness :
  Physics.schwarzschildStaticRate (Fin 1.98847e31) (Fin 3000) = Fin 0
  /\ Physics.schwarzschildStaticRate (Fin 5.972e24) (Fin 6.371e6)
     = Fin (sqrt (1 - 2 * Physics.G_value * 5.972e24
                      / (6.371e6 * Physics.C_value ^ 2))).
Proof.
  split.
  - apply (schwarzschildStaticRate_branches 1.98847e31 3000); try lra.
    unfold Physics.G_value, Physics.C_value; lra.
  - apply (schwarzschildStaticRate_branches 5.972e24 6.371e6); try lra.
    unfold Physics.G_value, Physics.C_value; lra.
Defined.

(** *** The branch at the horizon, on doubles *)

Lemma double_value_finite (f : PrimFloat.float) (s : bool) (m : positive)
  (e : Z) :
  FloatOps.Prim2SF f = SpecFloat.S754_finite s m e ->
  double_value f
  = let v := if (0 <=? e)%Z
             then IZR (Zpos m) * IZR (2 ^ e)
             else IZR (Zpos m) / IZR (2 ^ (- e)) in
    if s then - v else v.
Proof. intros H. unfold double_value. rewrite H. reflexivity. Qed.

Lemma mass59_value :
  double_value Boundary.mass59 = 6512553274440336 * 18014398509481984.
Proof.
  rewrite (double_value_finite _ false 6512553274440336 54)
    by (vm_compute; reflexivity).
  reflexivity.
Qed.

Lemma horizon59_value :
  double_value Boundary.horizon59 = 5987082140303995 / 34359738368.
Proof.
  rewrite (double_value_finite _ false 5987082140303995 (-35))
    by (vm_compute; reflexivity).
  reflexivity.
Qed.

Lemma massMars_value :
  double_value Boundary.massMars = 4781112074851990 * 134217728.
Proof.
  rewrite (double_value_finite _ false 4781112074851990 27)
    by (vm_compute; reflexivity).
  reflexivity.
Qed.

Lemma horizonMars_value :
  double_value Boundary.horizonMars
  = 8790687617552901 / 9223372036854775808.
Proof.
  rewrite (double_value_finite _ false 8790687617552901 (-63))
    by (vm_compute; reflexivity).
  reflexivity.
Qed.

Lemma G_double_value :
  double_value Float64.G = 5163989502626508 / 77371252455336267181195264.
Proof.
  rewrite (double_value_finite _ false 5163989502626508 (-86))
    by (vm_compute; reflexivity).
  reflexivity.
Qed.

Lemma C_double_value : double_value Float64.C = 299792458.
Proof.
  rewrite (double_value_finite _ false 5029682823036928 (-24))
    by (vm_compute; reflexivity).
  cbv zeta. change (0 <=? -24)%Z with false. cbv iota.
  change (2 ^ (- -24))%Z with 16777216%Z. lra.
Qed.

(** C1, as stated, fails on the doubles the code computes with, because the
    test [x >= 1] is made on the rounded [x].  At 59 solar masses and the
    radius [schwarzschildRadius] returns for them, [x >= 1] as a real
    number (with [G] read as the decimal 6.6743e-11 or as the double the
    code holds), yet the code returns a positive rate, about 1.05e-8.  At
    the mass of Mars and its radius, [x < 1] as a real number, yet the code
    returns [0]. *)
Lemma schwarzschildStaticRate_boundary_doubles :
  (let m := double_value Boundary.mass59 in
   let r := double_value Boundary.horizon59 in
   0 < m /\ 0 < r
   /\ 1 <= 2 * Physics.G_value * m / (r * Physics.C_value ^ 2)
   /\ 1 <= 2 * double_value Float64.G * m / (r * double_value Float64.C ^ 2)
   /\ PrimFloat.ltb PrimFloat.zero
        (Float64.schwarzschildStaticRate Boundary.mass59 Boundary.horizon59)
      = true)
  /\ (let m := double_value Boundary.massMars in
      let r := double_value Boundary.horizonMars in
      0 < m /\ 0 < r
      /\ 2 * Physics.G_value * m / (r * Physics.C_value ^ 2) < 1
      /\ 2 * double_value Float64.G * m / (r * double_value Float64.C ^ 2) < 1
      /\ PrimFloat.eqb
           (Float64.schwarzschildStaticRate Boundary.massMars
              Boundary.horizonMars) PrimFloat.zero
         = true).
Proof.
  cbv zeta.
  rewrite mass59_value, horizon59_value, massMars_value, horizonMars_value,
    G_double_value, C_double_value.
  unfold Physics.G_value, Physics.C_value.
  repeat split; try lra; vm_compute; reflexivity.
Qed.

(** ** The catalog *)

Lemma earth_found :
  App.find_body "earth"
  = Some (Physics.mkBody "earth" "地球" (Fin 5.972e24) (Fin 6.371e6) None).
Proof. reflexivity. Qed.

Lemma earth_not_BH : App.isBH App.earth = false.
Proof. reflexivity. Qed.

Lemma weakRate_Fin (p v : R) :
  Physics.weakRate (Fin p) (Fin v)
  = Fin (1 + p / (Physics.C_value * Physics.C_value)
         - v * v / (2 * Physics.C_value * Physics.C_value)).
Proof.
  unfold Physics.weakRate, Physics.C. simpl Num.mul.
  pose proof CC_pos as HC.
  rewrite !div_Fin by lra. reflexivity.
Qed.

Lemma phi_Fin (m r : R) :
  r <> 0 -> Physics.phi (Fin m) (Fin r) = Fin (- Physics.G_value * m / r).
Proof.
  intros Hr. unfold Physics.phi, Physics.G. simpl Num.mul.
  apply div_Fin; assumption.
Qed.

Lemma fEarth_Fin : App.fEarth = Fin fEarth_value.
Proof.
  unfold App.fEarth. change (Physics.massKg App.earth) with (Fin 5.972e24).
  change (Physics.radiusM App.earth) with (Fin 6.371e6).
  rewrite phi_Fin by lra. apply weakRate_Fin.
Qed.

Lemma fEarth_bounds : 0 < fEarth_value < 1.
Proof. unfold fEarth_value, Physics.G_value, Physics.C_value; lra. Qed.

(** ** Formula selection *)

Lemma seq_zero_iff (a : number) : (a === Fin 0)%num = true <-> a = Fin 0.
Proof.
  destruct a; simpl; split; intros H; try discriminate; try reflexivity.
  - apply Reqb_spec in H. congruence.
  - injection H as ->. apply Reqb_true; reflexivity.
Qed.

(** C2. For every body, mode, altitude, multiplier and exact-formula
    request, [fBody] is the exact static rate at the resolved radius exactly
    when the body is black-hole-classified, or it is not but the exact
    formula was requested and the resolved speed is zero; in every other
    case [fBody] is the weak-field rate of the potential and the speed at the
    resolved state.  The selection is the policy [selectFormula] of the
    specification. *)
Theorem fBody_formula_selection
  (body : Physics.Body) (mode : Physics.Mode) (altKm : number)
  (useExactStatic : bool) (rsMul : number) :
  let r := App.r body mode altKm rsMul in
  let v := App.v body mode altKm rsMul in
  let m := Physics.massKg body in
  (selectFormula (App.isBH body) useExactStatic v = ExactStatic
   <-> App.isBH body = true
       \/ (App.isBH body = false /\ useExactStatic = true /\ v = Fin 0))
  /\ App.fBody body mode altKm useExactStatic rsMul
     = match selectFormula (App.isBH body) useExactStatic v with
       | ExactStatic => Physics.schwarzschildStaticRate m r
       | WeakField => Physics.weakRate (Physics.phi m r) v
       end.
Proof.
  intros r v m. unfold App.fBody, selectFormula. fold r v m.
  destruct (App.isBH body) eqn:HBH.
  - split; [| reflexivity]. split; [left; reflexivity | reflexivity].
  - destruct useExactStatic; simpl.
    + destruct (v === Fin 0)%num eqn:Hv; split; try reflexivity.
      * split; [| reflexivity]. intros _. right.
        repeat split. apply seq_zero_iff; exact Hv.
      * split; [discriminate |].
        intros [H | (_ & _ & H)]; [discriminate |].
        apply seq_zero_iff in H. congruence.
    + split; [| reflexivity].
      split; [discriminate | intros [H | (_ & H & _)]; discriminate].
Qed.

(** ** The resolved state of a black-hole body *)

Lemma r_black_hole (body : Physics.Body) (mode : Physics.Mode)
  (altKm rsMul : number) :
  App.isBH body = true ->
  App.r body mode altKm rsMul
  = (Physics.schwarzschildRadius (Physics.massKg body)
     * Num.max rsMul (Fin 1.0001))%num.
Proof. intros H; unfold App.r; rewrite H; reflexivity. Qed.

Lemma v_black_hole (body : Physics.Body) (mode : Physics.Mode)
  (altKm rsMul : number) :
  App.isBH body = true -> App.v body mode altKm rsMul = Fin 0.
Proof. intros H; unfold App.v; rewrite H; reflexivity. Qed.

(** C3 (amended). For every black-hole-classified body and every supplied
    multiplier, the resolved radius is the Schwarzschild radius times the
    larger of the multiplier and 1.0001: a multiplier of at most 1.0001 is
    replaced by 1.0001, a multiplier of at least 1.0001 is used as given.
    The resolved speed is exactly 0. *)
Theorem black_hole_radius_speed
  (body : Physics.Body) (mode : Physics.Mode) (altKm rsMul : number) :
  App.isBH body = true ->
  let Rs := Physics.schwarzschildRadius (Physics.massKg body) in
  App.r body mode altKm rsMul = (Rs * Num.max rsMul (Fin 1.0001))%num
  /\ App.v body mode altKm rsMul = Fin 0
  /\ (forall k : R, rsMul = Fin k ->
        (k <= 1.0001 -> App.r body mode altKm rsMul = (Rs * Fin 1.0001)%num)
        /\ (1.0001 <= k -> App.r body mode altKm rsMul = (Rs * Fin k)%num)).
Proof.
  intros HBH Rs.
  rewrite (r_black_hole _ _ _ _ HBH), (v_black_hole _ _ _ _ HBH).
  fold Rs. repeat split; subst rsMul; rewrite max_Fin; intros Hk.
  - rewrite Rmax_right by assumption. reflexivity.
  - rewrite Rmax_left by assumption. reflexivity.
Qed.

Lemma bh10_is_BH : App.isBH bh10 = true.
Proof. reflexivity. Qed.

Lemma bh10_mass : Physics.massKg bh10 = Fin (10 * Physics.M_SUN_value).
Proof. reflexivity. Qed.

Lemma black_hole_radius_speed_witness :
  App.r bh10 Physics.staticAltitude (Fin 0) (Fin 2.5)
  = (Physics.schwarzschildRadius (Physics.massKg bh10) * Fin 2.5)%num
  /\ App.r bh10 Physics.staticAltitude (Fin 0) (Fin 0.5)
     = (Physics.schwarzschildRadius (Physics.massKg bh10) * Fin 1.0001)%num.
Proof.
  split.
  - apply (proj2 (proj2 (proj2 (black_hole_radius_speed bh10
             Physics.staticAltitude (Fin 0) (Fin 2.5) eq_refl)) 2.5 eq_refl)).
    lra.
  - apply (proj1 (proj2 (proj2 (black_hole_radius_speed bh10
             Physics.staticAltitude (Fin 0) (Fin 0.5) eq_refl)) 0.5 eq_refl)).
    lra.
Defined.

Lemma bh10_schwarzschildRadius_pos :
  exists rs : R,
    Physics.schwarzschildRadius (Physics.massKg bh10) = Fin rs /\ 0 < rs.
Proof.
  rewrite bh10_mass, schwarzschildRadius_Fin. eexists; split; [reflexivity |].
  unfold Rs_value, Physics.G_value, Physics.C_value, Physics.M_SUN_value; lra.
Qed.

(** C3, as stated, fails: the multiplier 1.00005 is strictly greater than 1,
    yet it is not used as given; the radius is 1.0001 Schwarzschild radii. *)
Lemma multiplier_above_one_clamped :
  App.r bh10 Physics.staticAltitude (Fin 0) (Fin 1.00005)
  <> (Physics.schwarzschildRadius (Physics.massKg bh10) * Fin 1.00005)%num
  /\ App.r bh10 Physics.staticAltitude (Fin 0) (Fin 1.00005)
     = (Physics.schwarzschildRadius (Physics.massKg bh10) * Fin 1.0001)%num.
Proof.
  rewrite (r_black_hole _ _ _ _ bh10_is_BH), max_Fin.
  rewrite Rmax_right by lra.
  destruct bh10_schwarzschildRadius_pos as (rs & -> & Hrs).
  split; [| reflexivity].
  simpl. intros H. injection H as H. nra.
Qed.

(** ** Earth against itself *)

Lemma fBody_earth_surface (altKm rsMul : number) :
  App.fBody App.earth Physics.surface altKm false rsMul = App.fEarth.
Proof. reflexivity. Qed.

Lemma R_ratio_earth_surface (altKm rsMul : number) :
  App.R_ratio App.earth Physics.surface altKm false rsMul = Fin 1.
Proof.
  unfold App.R_ratio. rewrite fBody_earth_surface, fEarth_Fin.
  pose proof fEarth_bounds as Hb.
  rewrite div_Fin by lra. f_equal. field. lra.
Qed.

(** C4. [compare(Earth, AtSurface)], the Earth catalog body in surface mode
    without the exact formula requested, has [fBody] equal to [fEarth],
    [R = 1] exactly and [perDaySeconds = 0] exactly, whatever the altitude
    and multiplier fields hold. *)
Theorem earth_surface_ratio_one (altKm rsMul : number) :
  App.fBody App.earth Physics.surface altKm false rsMul = App.fEarth
  /\ App.R_ratio App.earth Physics.surface altKm false rsMul = Fin 1
  /\ App.perDay App.earth Physics.surface altKm false rsMul = Fin 0.
Proof.
  split; [apply fBody_earth_surface |].
  split; [apply R_ratio_earth_surface |].
  unfold App.perDay. rewrite R_ratio_earth_surface. simpl. f_equal. ring.
Qed.

(** ** The time conversions *)

(** C5. For every comparison result: when [R] is not [0],
    [bodySecondInEarth] is [1 / earthSecondInBody] and [bodyHourInEarth] is
    [3600 / R]; when [R] is [0], both are [+infinity]; [earthSecondInBody]
    is [R] and [earthHourInBody] is [R * 3600]. *)
Theorem conversions_round_trip
  (body : Physics.Body) (mode : Physics.Mode) (altKm : number)
  (useExactStatic : bool) (rsMul : number) :
  let R := App.R_ratio body mode altKm useExactStatic rsMul in
  let earthSecondInBody :=
    App.earth1s_to_body body mode altKm useExactStatic rsMul in
  let bodySecondInEarth :=
    App.body1s_to_earth body mode altKm useExactStatic rsMul in
  let earthHourInBody :=
    App.earth1h_to_body body mode altKm useExactStatic rsMul in
  let bodyHourInEarth :=
    App.body1h_to_earth body mode altKm useExactStatic rsMul in
  earthSecondInBody = R
  /\ earthHourInBody = (R * Fin 3600)%num
  /\ (R <> Fin 0 ->
      bodySecondInEarth = (Fin 1 / earthSecondInBody)%num
      /\ bodyHourInEarth = (Fin 3600 / R)%num)
  /\ (R = Fin 0 -> bodySecondInEarth = PInf /\ bodyHourInEarth = PInf).
Proof.
  intros R e1s b1s e1h b1h.
  unfold e1s, b1s, e1h, b1h, App.earth1s_to_body, App.body1s_to_earth,
    App.earth1h_to_body, App.body1h_to_earth.
  fold R.
  split; [reflexivity |]. split; [reflexivity |].
  destruct (R === Fin 0)%num eqn:HR.
  - apply seq_zero_iff in HR. split; [contradiction | split; reflexivity].
  - split; [split; reflexivity |].
    intros H0. apply seq_zero_iff in H0. congruence.
Qed.

(** The Sun, at rest 1 km from its centre with the exact formula requested:
    the radius is inside the horizon, the rate and the ratio are [0]. *)
Lemma R_ratio_sun_inside_horizon (rsMul : number) :
  App.R_ratio sun Physics.staticAltitude (Fin (-696339)) true rsMul = Fin 0.
Proof.
  unfold App.R_ratio, App.fBody.
  change (App.isBH sun) with false.
  change (App.v sun Physics.staticAltitude (Fin (-696339)) rsMul) with (Fin 0).
  change (App.r sun Physics.staticAltitude (Fin (-696339)) rsMul)
    with (Fin (6.9634e8 + -696339 * 1000)).
  change (Physics.massKg sun) with (Fin 1.98847e30).
  cbn [Num.seq andb]. rewrite Reqb_true by reflexivity.
  rewrite schwarzschildStaticRate_Fin by lra.
  rewrite Rleb_true
    by (unfold x_of, Physics.G_value, Physics.C_value; lra).
  rewrite fEarth_Fin. pose proof fEarth_bounds as Hb.
  rewrite div_Fin by lra. f_equal. field. lra.
Qed.

Lemma conversions_round_trip_witness :
  App.body1s_to_earth App.earth Physics.surface (Fin 0) false (Fin 2.5)
  = (Fin 1
     / App.earth1s_to_body App.earth Physics.surface (Fin 0) false (Fin 2.5))%num
  /\ App.body1s_to_earth sun Physics.staticAltitude (Fin (-696339)) true
       (Fin 2.5) = PInf.
Proof.
  split.
  - apply (conversions_round_trip App.earth Physics.surface (Fin 0) false
             (Fin 2.5)).
    rewrite R_ratio_earth_surface. intros H; injection H as H; lra.
  - apply (conversions_round_trip sun Physics.staticAltitude (Fin (-696339))
             true (Fin 2.5)).
    apply R_ratio_sun_inside_horizon.
Defined.

(** ** The rate near a horizon *)

Lemma Rs_value_pos (m : R) : 0 < m -> 0 < Rs_value m.
Proof.
  intros Hm. unfold Rs_value.
  pose proof CC_pos as HC. pose proof G_pos as HG.
  apply Rdiv_lt_0_compat; [nra | assumption].
Qed.

Lemma clamp_ge (k : R) : 1.0001 <= Rmax k 1.0001.
Proof. apply Rmax_r. Qed.

Lemma x_of_horizon_multiple (m K : R) :
  0 < m -> 0 < K -> x_of m (Rs_value m * K) = / K.
Proof.
  intros Hm HK. unfold x_of, Rs_value.
  pose proof C_pos as HC. pose proof G_pos as HG.
  field. repeat split; lra.
Qed.

Lemma inv_clamp_lt_1 (K : R) : 1.0001 <= K -> 0 < / K <= / 1.0001 /\ / K < 1.
Proof.
  intros HK.
  assert (H0 : 0 < / K) by (apply Rinv_0_lt_compat; lra).
  assert (H1 : / K <= / 1.0001) by (apply Rinv_le_contravar; lra).
  repeat split; try assumption. lra.
Qed.

(** The resolved radius and the rate of a black-hole body of finite positive
    mass [m], at the finite multiplier [k]. *)
Lemma black_hole_state
  (body : Physics.Body) (mode : Physics.Mode) (altKm : number)
  (useExactStatic : bool) (m k : R) :
  App.isBH body = true -> Physics.massKg body = Fin m -> 0 < m ->
  App.r body mode altKm (Fin k) = Fin (Rs_value m * Rmax k 1.0001)
  /\ App.fBody body mode altKm useExactStatic (Fin k)
     = Fin (sqrt (1 - / Rmax k 1.0001)).
Proof.
  intros HBH Hmass Hm.
  assert (Hr : App.r body mode altKm (Fin k)
               = Fin (Rs_value m * Rmax k 1.0001)).
  { rewrite (r_black_hole _ _ _ _ HBH), Hmass, schwarzschildRadius_Fin,
      max_Fin. reflexivity. }
  split; [exact Hr |].
  unfold App.fBody. rewrite HBH, Hr, Hmass.
  pose proof (clamp_ge k) as HK.
  pose proof (Rs_value_pos m Hm) as Hrs.
  destruct (inv_clamp_lt_1 _ HK) as ((Hi0 & Hi1) & Hi2).
  rewrite schwarzschildStaticRate_Fin by nra.
  rewrite x_of_horizon_multiple by lra.
  rewrite Rleb_false by assumption.
  apply sqrt_Fin. lra.
Qed.

Lemma clamp_inverse_bounds (k : number) :
  0 <= clamp_inverse k <= / 1.0001.
Proof.
  destruct k as [| | | x]; simpl; try lra.
  pose proof (clamp_ge x) as HK.
  destruct (inv_clamp_lt_1 _ HK) as ((H0 & H1) & _). lra.
Qed.

Lemma clamp_inverse_antitone (k1 k2 : number) :
  Num.lt k1 k2 = true -> clamp_inverse k2 <= clamp_inverse k1.
Proof.
  destruct k1 as [| | | x], k2 as [| | | y]; simpl; intros H;
    try discriminate; try lra.
  - pose proof (clamp_inverse_bounds (Fin y)) as Hb. simpl in Hb. lra.
  - pose proof (clamp_inverse_bounds (Fin x)) as Hb. simpl in Hb. lra.
  - apply Rltb_spec in H.
    pose proof (clamp_ge x) as Hx. pose proof (clamp_ge y) as Hy.
    apply Rinv_le_contravar; [lra |].
    apply Rmax_lub; [| apply Rmax_r].
    apply Rle_trans with y; [lra | apply Rmax_l].
Qed.

Lemma clamp_inverse_clamped (k1 k2 : number) :
  Num.lt k1 k2 = true -> Num.le k2 (Fin 1.0001) = true ->
  clamp_inverse k1 = clamp_inverse k2.
Proof.
  destruct k1 as [| | | x], k2 as [| | | y]; simpl; intros Hlt Hle;
    try discriminate; try reflexivity.
  - apply Rleb_spec in Hle. rewrite Rmax_right by assumption. reflexivity.
  - apply Rltb_spec in Hlt. apply Rleb_spec in Hle.
    rewrite (Rmax_right x), (Rmax_right y) by lra. reflexivity.
Qed.

(** Multipliers a relative 1e-6 apart, above the clamp and up to 1e6, are
    separated. *)
Lemma clamp_inverse_strict (k1 k2 : number) :
  Num.le (Num.max k1 (Fin 1.0001) * Fin 1.000001)%num k2 = true ->
  Num.le k2 (Fin 1e6) = true ->
  clamp_inverse k2 < clamp_inverse k1.
Proof.
  intros Hgap Hmax.
  assert (Hnan : forall a : number, Num.le a NaN = false)
    by (intros a; destruct a; reflexivity).
  assert (Hinf : Num.max PInf (Fin 1.0001) = PInf) by reflexivity.
  assert (Hninf : Num.max NInf (Fin 1.0001) = Fin 1.0001) by reflexivity.
  assert (Htimes : (PInf * Fin 1.000001)%num = PInf).
  { cbn [Num.mul]. unfold Num.inf_times.
    rewrite Rltb_true by lra. reflexivity. }
  destruct k2 as [| | | y].
  - rewrite Hnan in Hgap. discriminate Hgap.
  - discriminate Hmax.
  - destruct k1 as [| | | x].
    + discriminate Hgap.
    + rewrite Hinf, Htimes in Hgap. discriminate Hgap.
    + rewrite Hninf in Hgap. discriminate Hgap.
    + rewrite max_Fin in Hgap. discriminate Hgap.
  - assert (Hy : forall a : R, 1.0001 <= a -> a * 1.000001 <= y ->
                 / Rmax y 1.0001 < / a).
    { intros a Ha Hay. rewrite Rmax_left by nra.
      apply Rinv_lt_contravar; nra. }
    destruct k1 as [| | | x].
    + discriminate Hgap.
    + rewrite Hinf, Htimes in Hgap. discriminate Hgap.
    + rewrite Hninf in Hgap.
      cbn [Num.mul Num.le] in Hgap. apply Rleb_spec in Hgap.
      simpl. apply Hy; lra.
    + rewrite max_Fin in Hgap. cbn [Num.mul Num.le] in Hgap.
      apply Rleb_spec in Hgap. simpl.
      apply Hy; [apply Rmax_r | exact Hgap].
Qed.

(** The resolved radius and the rate of a black-hole body of finite positive
    mass, at any multiplier that is a number: finite or infinite. *)
Lemma black_hole_state_any
  (body : Physics.Body) (mode : Physics.Mode) (altKm : number)
  (useExactStatic : bool) (m : R) (rsMul : number) :
  App.isBH body = true -> Physics.massKg body = Fin m -> 0 < m ->
  rsMul <> NaN ->
  Num.le (Physics.schwarzschildRadius (Physics.massKg body) * Fin 1.0001)%num
         (App.r body mode altKm rsMul) = true
  /\ ((Fin 2 * Physics.G * Physics.massKg body)
      / (App.r body mode altKm rsMul * Physics.C * Physics.C))%num
     = Fin (clamp_inverse rsMul)
  /\ App.fBody body mode altKm useExactStatic rsMul
     = Fin (sqrt (1 - clamp_inverse rsMul)).
Proof.
  intros HBH Hmass Hm Hnan.
  pose proof (Rs_value_pos m Hm) as Hrs.
  pose proof G_pos as HG. pose proof C_pos as HC.
  assert (Hfin : forall k : R,
            App.r body mode altKm rsMul = Fin (Rs_value m * Rmax k 1.0001) ->
            clamp_inverse rsMul = / Rmax k 1.0001 ->
            Num.le (Physics.schwarzschildRadius (Physics.massKg body)
                    * Fin 1.0001)%num (App.r body mode altKm rsMul) = true
            /\ ((Fin 2 * Physics.G * Physics.massKg body)
                / (App.r body mode altKm rsMul * Physics.C * Physics.C))%num
               = Fin (clamp_inverse rsMul)
            /\ App.fBody body mode altKm useExactStatic rsMul
               = Fin (sqrt (1 - clamp_inverse rsMul))).
  { intros k Hr Hci.
    pose proof (clamp_ge k) as HK.
    destruct (inv_clamp_lt_1 _ HK) as ((Hi0 & Hi1) & Hi2).
    assert (Hx : ((Fin 2 * Physics.G * Fin m)
                  / (Fin (Rs_value m * Rmax k 1.0001) * Physics.C
                     * Physics.C))%num = Fin (/ Rmax k 1.0001)).
    { unfold Physics.G, Physics.C. cbn [Num.mul].
      assert (Hden : 0 < Rs_value m * Rmax k 1.0001 * Physics.C_value
                         * Physics.C_value).
      { assert (0 < Rs_value m * Rmax k 1.0001) by nra.
        assert (0 < Rs_value m * Rmax k 1.0001 * Physics.C_value) by nra.
        nra. }
      rewrite div_Fin by lra. f_equal.
      rewrite <- (x_of_horizon_multiple m (Rmax k 1.0001)) by lra.
      reflexivity. }
    unfold App.fBody. rewrite HBH, Hr, Hmass, Hci.
    repeat split.
    - rewrite schwarzschildRadius_Fin. simpl. apply Rleb_true. nra.
    - exact Hx.
    - rewrite schwarzschildStaticRate_Fin by nra.
      rewrite x_of_horizon_multiple by lra.
      rewrite Rleb_false by assumption. apply sqrt_Fin. lra. }
  assert (Hr0 : App.r body mode altKm rsMul
                = (Fin (Rs_value m) * Num.max rsMul (Fin 1.0001))%num)
    by (rewrite (r_black_hole _ _ _ _ HBH), Hmass, schwarzschildRadius_Fin;
        reflexivity).
  destruct rsMul as [| | | k].
  - contradiction.
  - (* +Infinity: the radius is infinite and [x] is 0 *)
    assert (Hinf : forall y : R, 0 < y -> (PInf * Fin y)%num = PInf).
    { intros y Hy. cbn [Num.mul]. unfold Num.inf_times.
      rewrite Rltb_true by assumption. reflexivity. }
    assert (Hr : App.r body mode altKm PInf = PInf).
    { rewrite Hr0. change (Num.max PInf (Fin 1.0001)) with PInf.
      cbn [Num.mul]. unfold Num.inf_times.
      rewrite Rltb_true by assumption. reflexivity. }
    unfold App.fBody. rewrite HBH, Hr, Hmass.
    assert (Hx : ((Fin 2 * Physics.G * Fin m)
                  / (PInf * Physics.C * Physics.C))%num = Fin 0).
    { unfold Physics.G, Physics.C. rewrite !Hinf by assumption.
      reflexivity. }
    repeat split.
    + rewrite schwarzschildRadius_Fin. reflexivity.
    + exact Hx.
    + unfold Physics.schwarzschildStaticRate. cbv zeta. rewrite Hx.
      unfold Num.ge. cbn [Num.le]. rewrite Rleb_false by lra.
      apply sqrt_Fin. simpl. lra.
  - (* -Infinity: clamped to 1.0001 *)
    apply (Hfin 1.0001).
    + rewrite Hr0. simpl. rewrite Rmax_left by lra. reflexivity.
    + simpl. rewrite Rmax_left by lra. reflexivity.
  - apply (Hfin k).
    + rewrite Hr0, max_Fin. reflexivity.
    + reflexivity.
Qed.

(** C7 (amended). For a fixed black-hole-classified body of mass at least
    1e-100, [fBody] is non-decreasing in the supplied multiplier: for
    multipliers [k1 < k2], finite or infinite, [fBody] at [k1] is at most
    [fBody] at [k2].  The two are equal when [k2] is at most 1.0001, both
    multipliers being clamped to 1.0001; [fBody] at [k1] is strictly less
    when [k2] is at most 1e6 and exceeds [max (k1, 1.0001)] by a relative
    1e-6 or more. *)
Theorem fBody_black_hole_monotone
  (body : Physics.Body) (mode : Physics.Mode) (altKm : number)
  (useExactStatic : bool) (m : R) (k1 k2 : number) :
  App.isBH body = true -> Physics.massKg body = Fin m -> 1e-100 <= m ->
  Num.lt k1 k2 = true ->
  let f1 := App.fBody body mode altKm useExactStatic k1 in
  let f2 := App.fBody body mode altKm useExactStatic k2 in
  Num.le f1 f2 = true
  /\ (Num.le k2 (Fin 1.0001) = true -> f1 = f2)
  /\ (Num.le (Num.max k1 (Fin 1.0001) * Fin 1.000001)%num k2 = true ->
      Num.le k2 (Fin 1e6) = true ->
      Num.lt f1 f2 = true).
Proof.
  intros HBH Hmass Hbig Hk f1 f2. unfold f1, f2.
  assert (Hm : 0 < m) by lra.
  assert (Hn1 : k1 <> NaN) by (intros ->; discriminate Hk).
  assert (Hn2 : k2 <> NaN)
    by (intros ->; destruct k1; discriminate Hk).
  destruct (black_hole_state_any body mode altKm useExactStatic m k1
              HBH Hmass Hm Hn1) as (_ & _ & ->).
  destruct (black_hole_state_any body mode altKm useExactStatic m k2
              HBH Hmass Hm Hn2) as (_ & _ & ->).
  pose proof (clamp_inverse_antitone k1 k2 Hk) as Hanti.
  pose proof (clamp_inverse_bounds k1) as Hb1.
  pose proof (clamp_inverse_bounds k2) as Hb2.
  repeat split.
  - simpl. apply Rleb_true. apply sqrt_le_1_alt. lra.
  - intros Hle. rewrite (clamp_inverse_clamped k1 k2 Hk Hle). reflexivity.
  - intros Hgap Hmax. pose proof (clamp_inverse_strict k1 k2 Hgap Hmax).
    simpl. apply Rltb_true. apply sqrt_lt_1; lra.
Qed.

Lemma fBody_black_hole_monotone_witness :
  Num.lt (App.fBody bh10 Physics.staticAltitude (Fin 0) false (Fin 2))
         (App.fBody bh10 Physics.staticAltitude (Fin 0) false (Fin 2.5)) = true
  /\ App.fBody bh10 Physics.staticAltitude (Fin 0) false NInf
     = App.fBody bh10 Physics.staticAltitude (Fin 0) false (Fin 1).
Proof.
  split.
  - apply (fBody_black_hole_monotone bh10 Physics.staticAltitude (Fin 0) false
             (10 * Physics.M_SUN_value) (Fin 2) (Fin 2.5));
      [reflexivity | reflexivity | unfold Physics.M_SUN_value; lra | | |].
    + simpl. apply Rltb_true. lra.
    + rewrite max_Fin. simpl. apply Rleb_true.
      rewrite Rmax_left by lra. lra.
    + simpl. apply Rleb_true. lra.
  - apply (fBody_black_hole_monotone bh10 Physics.staticAltitude (Fin 0) false
             (10 * Physics.M_SUN_value) NInf (Fin 1));
      [reflexivity | reflexivity | unfold Physics.M_SUN_value; lra
      | reflexivity |].
    simpl. apply Rleb_true. lra.
Defined.

(** C7, as stated, fails: the multipliers 0.5 < 1 give the same [fBody],
    both being clamped to 1.0001. *)
Lemma clamped_multipliers_same_rate :
  Num.lt (App.fBody bh10 Physics.staticAltitude (Fin 0) false (Fin 0.5))
         (App.fBody bh10 Physics.staticAltitude (Fin 0) false (Fin 1)) = false
  /\ App.fBody bh10 Physics.staticAltitude (Fin 0) false (Fin 0.5)
     = App.fBody bh10 Physics.staticAltitude (Fin 0) false (Fin 1).
Proof.
  assert (Hm : 0 < 10 * Physics.M_SUN_value)
    by (unfold Physics.M_SUN_value; lra).
  destruct (black_hole_state bh10 Physics.staticAltitude (Fin 0) false _ 0.5
              bh10_is_BH bh10_mass Hm) as [_ ->].
  destruct (black_hole_state bh10 Physics.staticAltitude (Fin 0) false _ 1
              bh10_is_BH bh10_mass Hm) as [_ ->].
  rewrite (Rmax_right 0.5), (Rmax_right 1) by lra.
  split; [| reflexivity].
  simpl. apply Rltb_false. lra.
Qed.

(** C10 (amended). For every black-hole-classified body of mass at least
    1e-100 and every supplied multiplier other than [NaN], values at or
    below 1 and the infinities included, the resolved radius is at least
    1.0001 Schwarzschild radii, so [x = Rs/r <= 1/1.0001 < 1] in
    [schwarzschildStaticRate]; the zero-rate branch is not taken:
    [fBody > 0], [R > 0], and [bodySecondInEarth] is finite. *)
Theorem black_hole_rate_positive
  (body : Physics.Body) (mode : Physics.Mode) (altKm : number)
  (useExactStatic : bool) (m : R) (rsMul : number) :
  App.isBH body = true -> Physics.massKg body = Fin m -> 1e-100 <= m ->
  rsMul <> NaN ->
  let r := App.r body mode altKm rsMul in
  let x := ((Fin 2 * Physics.G * Physics.massKg body)
            / (r * Physics.C * Physics.C))%num in
  Num.le (Physics.schwarzschildRadius (Physics.massKg body) * Fin 1.0001)%num
         r = true
  /\ Num.le x (Fin (1 / 1.0001)) = true
  /\ Num.lt x (Fin 1) = true
  /\ (exists f : R,
        App.fBody body mode altKm useExactStatic rsMul = Fin f /\ 0 < f)
  /\ Num.lt (Fin 0) (App.R_ratio body mode altKm useExactStatic rsMul) = true
  /\ Num.isFinite
       (App.body1s_to_earth body mode altKm useExactStatic rsMul) = true.
Proof.
  intros HBH Hmass Hbig Hnan r x. unfold x, r.
  assert (Hm : 0 < m) by lra.
  destruct (black_hole_state_any body mode altKm useExactStatic m rsMul
              HBH Hmass Hm Hnan) as (Hr & -> & Hf).
  pose proof (clamp_inverse_bounds rsMul) as Hb.
  pose proof fEarth_bounds as He.
  assert (Hfpos : 0 < sqrt (1 - clamp_inverse rsMul))
    by (apply sqrt_lt_R0; lra).
  assert (HR : App.R_ratio body mode altKm useExactStatic rsMul
               = Fin (sqrt (1 - clamp_inverse rsMul) / fEarth_value)).
  { unfold App.R_ratio. rewrite Hf, fEarth_Fin. apply div_Fin. lra. }
  assert (HRpos : 0 < sqrt (1 - clamp_inverse rsMul) / fEarth_value)
    by (apply Rdiv_lt_0_compat; lra).
  repeat split.
  - exact Hr.
  - simpl. apply Rleb_true. lra.
  - simpl. apply Rltb_true. lra.
  - eexists; split; [exact Hf | exact Hfpos].
  - rewrite HR. simpl. apply Rltb_true. exact HRpos.
  - unfold App.body1s_to_earth. rewrite HR. simpl Num.seq.
    rewrite Reqb_false by lra.
    rewrite div_Fin by lra. reflexivity.
Qed.

Lemma black_hole_rate_positive_witness :
  (exists f : R,
     App.fBody bh10 Physics.staticAltitude (Fin 0) false (Fin 0.5) = Fin f
     /\ 0 < f)
  /\ Num.isFinite
       (App.body1s_to_earth bh10 Physics.staticAltitude (Fin 0) false PInf)
     = true.
Proof.
  split.
  - apply (black_hole_rate_positive bh10 Physics.staticAltitude (Fin 0) false
             (10 * Physics.M_SUN_value) (Fin 0.5));
      [reflexivity | reflexivity | unfold Physics.M_SUN_value; lra
      | discriminate].
  - apply (black_hole_rate_positive bh10 Physics.staticAltitude (Fin 0) false
             (10 * Physics.M_SUN_value) PInf);
      [reflexivity | reflexivity | unfold Physics.M_SUN_value; lra
      | discriminate].
Defined.

(** C10, as stated, fails: at the multiplier [NaN] the radius and the rate
    of a black hole are [NaN]; the rate is not positive and the
    body-second conversion is not finite. *)
Lemma black_hole_NaN_multiplier :
  App.r bh10 Physics.staticAltitude (Fin 0) NaN = NaN
  /\ App.fBody bh10 Physics.staticAltitude (Fin 0) false NaN = NaN
  /\ Num.lt (Fin 0) (App.fBody bh10 Physics.staticAltitude (Fin 0) false NaN)
     = false
  /\ Num.isFinite
       (App.body1s_to_earth bh10 Physics.staticAltitude (Fin 0) false NaN)
     = false.
Proof.
  assert (Hr : App.r bh10 Physics.staticAltitude (Fin 0) NaN = NaN).
  { rewrite (r_black_hole _ _ _ _ bh10_is_BH).
    destruct bh10_schwarzschildRadius_pos as (rs & -> & _). reflexivity. }
  assert (Hf : App.fBody bh10 Physics.staticAltitude (Fin 0) false NaN = NaN).
  { unfold App.fBody. rewrite bh10_is_BH, Hr, bh10_mass. reflexivity. }
  unfold App.body1s_to_earth, App.R_ratio. rewrite Hf.
  repeat split; assumption.
Qed.

(** ** The resolved radius *)

(** C8 (amended). For every body of positive mass and radius, every mode,
    every multiplier, and every altitude that is non-negative (the altitude
    is not read for a black-hole body or in surface mode), the resolved
    radial distance [r] is strictly greater than 0. *)
Theorem r_positive
  (body : Physics.Body) (mode : Physics.Mode) (alt k : R) :
  wf_body body ->
  App.isBH body = true \/ mode = Physics.surface \/ 0 <= alt ->
  Num.lt (Fin 0) (App.r body mode (Fin alt) (Fin k)) = true.
Proof.
  intros (m & rad & Hmass & Hrad & Hm & Hradpos) Hcase.
  destruct (App.isBH body) eqn:HBH.
  - rewrite (r_black_hole _ _ _ _ HBH), Hmass, schwarzschildRadius_Fin,
      max_Fin.
    simpl. apply Rltb_true.
    pose proof (Rs_value_pos m Hm). pose proof (clamp_ge k). nra.
  - unfold App.r. rewrite HBH, Hrad.
    destruct Hcase as [H | [-> | Halt]]; [discriminate | |].
    + simpl. apply Rltb_true; assumption.
    + destruct mode; simpl; apply Rltb_true; nra.
Qed.

Lemma earth_wf : wf_body App.earth.
Proof.
  exists 5.972e24, 6.371e6. repeat split; try reflexivity; lra.
Qed.

Lemma r_positive_witness :
  Num.lt (Fin 0)
    (App.r App.earth Physics.circularOrbit (Fin 20200) (Fin 2.5)) = true.
Proof.
  apply (r_positive App.earth Physics.circularOrbit 20200 2.5);
    [exact earth_wf | right; right; lra].
Defined.

(** C8, as stated, fails: Earth at rest at the altitude -7000 km resolves to
    a negative radius. *)
Lemma negative_altitude_negative_radius :
  Num.lt (Fin 0)
    (App.r App.earth Physics.staticAltitude (Fin (-7000)) (Fin 2.5)) = false
  /\ Num.lt (App.r App.earth Physics.staticAltitude (Fin (-7000)) (Fin 2.5))
       (Fin 0) = true.
Proof.
  change (App.r App.earth Physics.staticAltitude (Fin (-7000)) (Fin 2.5))
    with (Fin (6.371e6 + -7000 * 1000)).
  simpl. split; [apply Rltb_false | apply Rltb_true]; lra.
Qed.

(** ** The hue shift *)

Lemma hueShiftFromRatio_Fin (x : R) :
  App.hueShiftFromRatio (Fin x)
  = Fin ((if Rleb 0 (x - 1) then 1 else -1)
         * Rmin 1 (sqrt (Rabs (x - 1)) * 2e4)).
Proof.
  unfold App.hueShiftFromRatio.
  change (Fin x - Fin 1)%num with (Fin (x - 1)).
  cbn [Num.abs]. rewrite sqrt_Fin by apply Rabs_pos.
  cbn [Num.mul]. rewrite min_Fin.
  unfold Num.ge, Num.le.
  destruct (Rleb 0 (x - 1)); reflexivity.
Qed.

Lemma hueShift_real (x : R) :
  let h := Rsign (x - 1) * Rmin 1 (sqrt (Rabs (x - 1)) * 2e4) in
  App.hueShiftFromRatio (Fin x) = Fin h /\ -1 <= h <= 1.
Proof.
  intros h. unfold h.
  rewrite hueShiftFromRatio_Fin.
  set (s := Rmin 1 (sqrt (Rabs (x - 1)) * 2e4)).
  assert (Hs1 : s <= 1) by apply Rmin_l.
  assert (Hs0 : 0 <= s).
  { apply Rmin_glb; [lra |].
    apply Rmult_le_pos; [apply sqrt_pos | lra]. }
  unfold Rsign.
  destruct (Rtotal_order 0 (x - 1)) as [Hpos | [Hzero | Hneg]].
  - rewrite Rleb_true, Rltb_true by lra. split; [reflexivity | lra].
  - assert (Hsz : s = 0).
    { unfold s. rewrite <- Hzero, Rabs_R0, sqrt_0, Rmult_0_l.
      apply Rmin_right; lra. }
    rewrite Rleb_true, !Rltb_false by lra.
    rewrite Hsz. split; [f_equal; ring | lra].
  - rewrite Rleb_false, Rltb_false, Rltb_true by lra.
    split; [reflexivity | lra].
Qed.

Lemma hueShift_spec_Fin (x : R) :
  hueShift_spec (Fin x)
  = Fin (Rsign (x - 1) * Rmin 1 (sqrt (Rabs (x - 1)) * 2e4)).
Proof.
  unfold hueShift_spec.
  change (Fin x - Fin 1)%num with (Fin (x - 1)).
  cbn [Num.abs Num.sign]. rewrite sqrt_Fin by apply Rabs_pos.
  cbn [Num.mul]. rewrite min_Fin. reflexivity.
Qed.

Lemma hueShift_infinite :
  App.hueShiftFromRatio PInf = Fin 1 /\ hueShift_spec PInf = Fin 1
  /\ App.hueShiftFromRatio NInf = Fin (-1) /\ hueShift_spec NInf = Fin (-1).
Proof.
  unfold App.hueShiftFromRatio, hueShift_spec. simpl.
  unfold Num.inf_times. Rtests. simpl.
  repeat split; f_equal; ring.
Qed.

(** The hue shift on every ratio: it is
    [sign (R-1) * min (1, sqrt |R-1| * 2e4)]; for every [R] other than [NaN]
    it lies in [[-1, 1]], and for [R = NaN] it is [NaN]. *)
Lemma hueShift_formula_range (Ratio : number) :
  App.hueShiftFromRatio Ratio = hueShift_spec Ratio
  /\ (Ratio <> NaN ->
      within (Fin (-1)) (Fin 1) (App.hueShiftFromRatio Ratio) = true)
  /\ (Ratio = NaN -> App.hueShiftFromRatio Ratio = NaN).
Proof.
  destruct hueShift_infinite as (Hp & Hps & Hn & Hns).
  destruct Ratio as [| | | x].
  - repeat split; try reflexivity. intros H; contradiction.
  - rewrite Hp, Hps. repeat split; try discriminate.
    intros _. unfold within. simpl. Rtests. reflexivity.
  - rewrite Hn, Hns. repeat split; try discriminate.
    intros _. unfold within. simpl. Rtests. reflexivity.
  - destruct (hueShift_real x) as [-> Hrange].
    rewrite hueShift_spec_Fin. repeat split; try discriminate.
    intros _. unfold within. simpl.
    rewrite !Rleb_true by lra. reflexivity.
Qed.

(** Earth, in circular orbit at the altitude -7000 km: the resolved radius
    is negative, the orbital speed is [NaN], and so are the rate and the
    ratio. *)
Lemma R_ratio_earth_below_centre (rsMul : number) :
  App.R_ratio App.earth Physics.circularOrbit (Fin (-7000)) false rsMul = NaN.
Proof.
  unfold App.R_ratio, App.fBody.
  change (App.isBH App.earth) with false. cbn [andb].
  change (App.r App.earth Physics.circularOrbit (Fin (-7000)) rsMul)
    with (Fin (6.371e6 + -7000 * 1000)).
  change (App.v App.earth Physics.circularOrbit (Fin (-7000)) rsMul)
    with (Physics.circularOrbitSpeed (Fin 5.972e24)
            (Fin (6.371e6 + -7000 * 1000))).
  change (Physics.massKg App.earth) with (Fin 5.972e24).
  assert (Hv : Physics.circularOrbitSpeed (Fin 5.972e24)
                 (Fin (6.371e6 + -7000 * 1000)) = NaN).
  { unfold Physics.circularOrbitSpeed, Physics.G. cbn [Num.mul].
    rewrite div_Fin by lra. cbn [Num.sqrt].
    rewrite Rltb_true by (unfold Physics.G_value; lra). reflexivity. }
  rewrite Hv, phi_Fin by lra.
  unfold Physics.weakRate, Physics.C. cbn [Num.mul].
  pose proof CC_pos as HC. rewrite div_Fin by lra.
  reflexivity.
Qed.

(** C9. The hue shift leaves the range [[-1, 1]] that the claim, and the
    source's own comment on [hueShiftFromRatio], give it: the ratio of Earth
    in circular orbit at the altitude -7000 km, a state the altitude input
    reaches, is [NaN], and the hue shift derived from it is [NaN]; the clamp
    [Math.min (1, ...)] does not catch it. *)
Lemma hueShift_NaN_out_of_range :
  App.R_ratio App.earth Physics.circularOrbit (Fin (-7000)) false (Fin 2.5)
  = NaN
  /\ App.hueShift App.earth Physics.circularOrbit (Fin (-7000)) false (Fin 2.5)
     = NaN
  /\ within (Fin (-1)) (Fin 1)
       (App.hueShift App.earth Physics.circularOrbit (Fin (-7000)) false
          (Fin 2.5)) = false.
Proof.
  unfold App.hueShift. rewrite R_ratio_earth_below_centre.
  repeat split.
Qed.

(** ** The catalog satisfies the data model *)

Lemma catalog_wf : Forall wf_body Physics.BODIES.
Proof.
  unfold Physics.BODIES, Physics.M_SUN, Physics.R_SUN.
  repeat constructor;
    (eexists; eexists; cbn [Physics.massKg Physics.radiusM Num.mul];
     split; [reflexivity |]; split; [reflexivity |];
     unfold Physics.M_SUN_value, Physics.R_SUN_value; lra).
Qed.

Lemma catalog_black_holes :
  map Physics.id (filter App.isBH Physics.BODIES) = ["bh10"; "sgrA"]%string.
Proof. reflexivity. Qed.

(** ** The GPS preset *)

(** Earth in circular orbit at 20200 km: the clock runs faster than on the
    surface, [R > 1]. *)
Lemma GPS_preset_ratio_above_one :
  let i := App.setGPS App.initial in
  Num.lt (Fin 1)
    (App.R_ratio (App.body_of i) (App.mode i) (App.altKm i)
       (App.useExactStatic i) (App.rsMul i)) = true.
Proof.
  cbv zeta.
  change (App.body_of (App.setGPS App.initial)) with App.earth.
  change (App.mode (App.setGPS App.initial)) with Physics.circularOrbit.
  change (App.altKm (App.setGPS App.initial)) with (Fin 20200).
  change (App.useExactStatic (App.setGPS App.initial)) with false.
  unfold App.R_ratio, App.fBody.
  change (App.isBH App.earth) with false. cbn [andb].
  change (App.r App.earth Physics.circularOrbit (Fin 20200)
            (App.rsMul (App.setGPS App.initial)))
    with (Fin (6.371e6 + 20200 * 1000)).
  change (App.v App.earth Physics.circularOrbit (Fin 20200)
            (App.rsMul (App.setGPS App.initial)))
    with (Physics.circularOrbitSpeed (Fin 5.972e24)
            (Fin (6.371e6 + 20200 * 1000))).
  change (Physics.massKg App.earth) with (Fin 5.972e24).
  set (x := Physics.G_value * 5.972e24 / (6.371e6 + 20200 * 1000)).
  assert (Hx : 0 <= x) by (unfold x, Physics.G_value; lra).
  assert (Hv : Physics.circularOrbitSpeed (Fin 5.972e24)
                 (Fin (6.371e6 + 20200 * 1000)) = Fin (sqrt x)).
  { unfold Physics.circularOrbitSpeed, Physics.G. cbn [Num.mul].
    rewrite div_Fin by lra. apply sqrt_Fin. exact Hx. }
  rewrite Hv, phi_Fin, weakRate_Fin, fEarth_Fin by lra.
  rewrite sqrt_sqrt by exact Hx.
  pose proof fEarth_bounds as He.
  rewrite div_Fin by lra. simpl. apply Rltb_true.
  apply Rmult_lt_reg_r with fEarth_value; [lra |].
  unfold Rdiv at 1. rewrite Rmult_assoc, Rinv_l, Rmult_1_r by lra.
  unfold x, fEarth_value, Physics.G_value, Physics.C_value. lra.
Qed.

(** ** Selecting a black hole *)

(** The effect that follows the selection of a black hole fixes the mode
    and raises the multiplier to at least 2; every other field is kept. *)
Lemma onIsBHChange_black_hole (i : App.Inputs) (k : R) :
  App.isBH (App.body_of i) = true -> App.rsMul i = Fin k ->
  App.mode (App.onIsBHChange i) = Physics.staticAltitude
  /\ App.rsMul (App.onIsBHChange i) = Fin (Rmax k 2.0)
  /\ App.bodyId (App.onIsBHChange i) = App.bodyId i.
Proof.
  intros HBH Hk. unfold App.onIsBHChange. rewrite HBH. simpl.
  rewrite Hk, max_Fin. repeat split.
Qed.

Lemma onIsBHChange_normal (i : App.Inputs) :
  App.isBH (App.body_of i) = false -> App.onIsBHChange i = i.
Proof. intros HBH. unfold App.onIsBHChange. rewrite HBH. reflexivity. Qed.

(** ** The examples, evaluated in double precision *)

Module Float64Examples.
Import PrimFloat Physics Float64.
#[local] Set Warnings "-inexact-float".
#[local] Open Scope float_scope.

(** Earth at the surface: [R] is [1] and the daily difference is [0]. *)
Example f64_earth_surface :
  R_ratio earth surface 0 false 2.5 = 1
  /\ perDay earth surface 0 false 2.5 = 0.
Proof. vm_compute. split; reflexivity. Qed.

(** The multiplier 1.00005 is replaced by 1.0001. *)
Example f64_clamp_threshold :
  (r bh10 staticAltitude 0 1.00005
   =? schwarzschildRadius (massKg bh10) * 1.0001) = true
  /\ (r bh10 staticAltitude 0 1.00005
      =? schwarzschildRadius (massKg bh10) * 1.00005) = false.
Proof. vm_compute. split; reflexivity. Qed.

(** The multipliers 0.5 and 1 give the same rate; 2 and 2.5 do not. *)
Example f64_clamped_pair :
  (fBody bh10 staticAltitude 0 false 0.5
   <? fBody bh10 staticAltitude 0 false 1) = false
  /\ (fBody bh10 staticAltitude 0 false 2
      <? fBody bh10 staticAltitude 0 false 2.5) = true.
Proof. vm_compute. split; reflexivity. Qed.

(** Earth at the altitude -7000 km: a negative radius at rest, and in orbit
    a ratio and a hue shift that are [NaN]. *)
Example f64_negative_altitude :
  (r earth staticAltitude (-7000) 2.5 <? 0) = true
  /\ is_nan (R_ratio earth circularOrbit (-7000) false 2.5) = true
  /\ is_nan (hueShift earth circularOrbit (-7000) false 2.5) = true.
Proof. vm_compute. repeat split. Qed.

(** The Sun at 1 km from its centre, with the exact formula: the ratio is
    [0] and a body second is an infinity of Earth seconds. *)
Example f64_sun_inside_horizon :
  R_ratio sun staticAltitude (-696339) true 2.5 = 0
  /\ body1s_to_earth sun staticAltitude (-696339) true 2.5 = infinity.
Proof. vm_compute. split; reflexivity. Qed.

(** A black hole at the clamp: the rate is positive and the conversion
    finite. *)
Example f64_black_hole_at_clamp :
  (0 <? fBody bh10 staticAltitude 0 false 0.5) = true
  /\ (body1s_to_earth bh10 staticAltitude 0 false 0.5 <? infinity) = true.
Proof. vm_compute. split; reflexivity. Qed.

(** The GPS preset: between 38 and 39 microseconds gained per day. *)
Example f64_GPS_preset :
  (38e-6 <? perDay earth circularOrbit 20200 false 2.5) = true
  /\ (perDay earth circularOrbit 20200 false 2.5 <? 39e-6) = true.
Proof. vm_compute. split; reflexivity. Qed.

(** At the radius [schwarzschildRadius] returns, rounding can leave [x]
    just below 1: the rate is then small but not [0]. *)
Example f64_horizon_boundary :
  (0 <? schwarzschildStaticRate (massKg bh10)
          (schwarzschildRadius (massKg bh10))) = true
  /\ (schwarzschildStaticRate (massKg bh10)
        (schwarzschildRadius (massKg bh10)) <? 2e-8) = true
  /\ schwarzschildStaticRate (massKg bh10)
       (0.999 * schwarzschildRadius (massKg bh10)) = 0.
Proof. vm_compute. repeat split. Qed.

(** In orbit the exact-formula request changes nothing; below 3185.5 km
    the orbiting clock is slower, above it faster. *)
Example f64_earth_orbit :
  (fBody earth circularOrbit 20200 true 2.5
   =? fBody earth circularOrbit 20200 false 2.5) = true
  /\ (R_ratio earth circularOrbit 400 false 2.5 <? 1) = true
  /\ (1 <? R_ratio earth circularOrbit 3186 false 2.5) = true
  /\ (1 <? R_ratio earth staticAltitude 400 false 2.5) = true.
Proof. vm_compute. repeat split. Qed.

(** Multipliers the rounding does not separate: 2.5 and the next double
    above it, and 1e17 and 2e17, where the rate is [1]. *)
Example f64_multiplier_ties :
  (fBody bh10 staticAltitude 0 false 2.5
   =? fBody bh10 staticAltitude 0 false (next_up 2.5)) = true
  /\ fBody bh10 staticAltitude 0 false 1e17 = 1
  /\ fBody bh10 staticAltitude 0 false 2e17 = 1.
Proof. vm_compute. repeat split. Qed.

(** The multipliers that are not finite: the infinities give a positive
    rate, [NaN] gives [NaN]. *)
Example f64_multiplier_not_finite :
  fBody bh10 staticAltitude 0 false infinity = 1
  /\ (fBody bh10 staticAltitude 0 false neg_infinity
      =? fBody bh10 staticAltitude 0 false 1.0001) = true
  /\ is_nan (r bh10 staticAltitude 0 nan) = true
  /\ is_nan (fBody bh10 staticAltitude 0 false nan) = true
  /\ is_nan (body1s_to_earth bh10 staticAltitude 0 false nan) = true.
Proof. vm_compute. repeat split. Qed.

(** A negative radius: the orbital speed is [NaN], the exact static rate a
    value above [1]. *)
Example f64_negative_radius :
  is_nan (circularOrbitSpeed (massKg earth) (-629000)) = true
  /\ (1 <=? schwarzschildStaticRate (massKg earth) (-629000)) = true
  /\ (schwarzschildStaticRate (massKg earth) (-629000) <? infinity) = true.
Proof. vm_compute. repeat split. Qed.

(** The hue shift near a black hole, at the slider's ends. *)
Example f64_black_hole_hue :
  hueShift bh10 staticAltitude 0 false 1.01 = -1
  /\ hueShift bh10 staticAltitude 0 false 50 = -1.
Proof. vm_compute. split; reflexivity. Qed.

End Float64Examples.

(** * Further properties of the code *)

(** ** The rate functions *)

Lemma circularOrbitSpeed_Fin (m r : R) :
  0 <= m -> 0 < r ->
  Physics.circularOrbitSpeed (Fin m) (Fin r)
  = Fin (sqrt (Physics.G_value * m / r)).
Proof.
  intros Hm Hr. unfold Physics.circularOrbitSpeed, Physics.G. cbn [Num.mul].
  rewrite div_Fin by lra. apply sqrt_Fin.
  pose proof G_pos as HG.
  apply Rmult_le_pos; [nra | left; apply Rinv_0_lt_compat; assumption].
Qed.

(** X1. [circularOrbitSpeed] for a mass between 1e-100 and 1e100, at a
    radius of magnitude between 1e-100 and 1e100, where no product or
    quotient overflows or underflows: at a positive radius it is a positive
    finite speed whose square is [G*m/r] in exact arithmetic; at a negative
    radius it is [NaN]. *)
Theorem circularOrbitSpeed_cases (m r : R) :
  1e-100 <= m <= 1e100 ->
  (1e-100 <= r <= 1e100 ->
   exists v : R,
     Physics.circularOrbitSpeed (Fin m) (Fin r) = Fin v
     /\ 0 < v /\ v * v = Physics.G_value * m / r)
  /\ (- 1e100 <= r <= - 1e-100 ->
      Physics.circularOrbitSpeed (Fin m) (Fin r) = NaN).
Proof.
  intros Hm. pose proof G_pos as HG.
  assert (HGm : 0 < Physics.G_value * m) by nra.
  split.
  - intros Hr. exists (sqrt (Physics.G_value * m / r)).
    assert (Hq : 0 < Physics.G_value * m / r)
      by (apply Rdiv_lt_0_compat; lra).
    rewrite circularOrbitSpeed_Fin by lra.
    repeat split; [apply sqrt_lt_R0; exact Hq | apply sqrt_sqrt; lra].
  - intros Hr. unfold Physics.circularOrbitSpeed, Physics.G. cbn [Num.mul].
    rewrite div_Fin by lra. cbn [Num.sqrt].
    rewrite Rltb_true; [reflexivity |].
    assert (0 < / - r) by (apply Rinv_0_lt_compat; lra).
    unfold Rdiv. replace (/ r) with (- / - r) by (field; lra). nra.
Qed.

Lemma circularOrbitSpeed_cases_witness :
  (exists v : R,
     Physics.circularOrbitSpeed (Fin 5.972e24) (Fin 26571000) = Fin v
     /\ 0 < v /\ v * v = Physics.G_value * 5.972e24 / 26571000)
  /\ Physics.circularOrbitSpeed (Fin 5.972e24) (Fin (-629000)) = NaN.
Proof.
  split.
  - apply (circularOrbitSpeed_cases 5.972e24 26571000); lra.
  - apply (circularOrbitSpeed_cases 5.972e24 (-629000)); lra.
Defined.

(** X2. The rate of a circular orbit in closed form: for a positive mass
    and radius, the weak-field rate at the orbit's potential and speed is
    [1 - 3*G*m / (2*r*C^2)]. *)
Theorem orbit_rate_closed_form (m r : R) :
  0 < m -> 0 < r ->
  Physics.weakRate (Physics.phi (Fin m) (Fin r))
    (Physics.circularOrbitSpeed (Fin m) (Fin r))
  = Fin (1 - 3 * Physics.G_value * m / (2 * r * Physics.C_value ^ 2)).
Proof.
  intros Hm Hr. pose proof G_pos as HG. pose proof C_pos as HC.
  rewrite phi_Fin, circularOrbitSpeed_Fin, weakRate_Fin by lra.
  rewrite sqrt_sqrt.
  - f_equal. field. lra.
  - apply Rmult_le_pos; [nra | left; apply Rinv_0_lt_compat; assumption].
Qed.

Lemma orbit_rate_closed_form_witness :
  Physics.weakRate (Physics.phi (Fin 5.972e24) (Fin 26571000))
    (Physics.circularOrbitSpeed (Fin 5.972e24) (Fin 26571000))
  = Fin (1 - 3 * Physics.G_value * 5.972e24
             / (2 * 26571000 * Physics.C_value ^ 2)).
Proof. apply (orbit_rate_closed_form 5.972e24 26571000); lra. Defined.

Lemma x_of_Rs (m r : R) : r <> 0 -> x_of m r = Rs_value m / r.
Proof.
  intros Hr. unfold x_of, Rs_value. pose proof C_pos as HC. field. lra.
Qed.

(** X3. Inside the horizon the exact static rate is [0]: for a mass between
    1e-100 and 1e100, at every positive radius up to the Schwarzschild
    radius less a relative 1e-15 (closer to the horizon the rounding of [x]
    selects the branch).  At a negative radius of magnitude between 1e-100
    and 1e100 the rate is a finite value of at least [1], not an error and
    not [0]. *)
Theorem schwarzschildStaticRate_inside_horizon (m r : R) :
  1e-100 <= m <= 1e100 ->
  (0 < r <= Rs_value m * (1 - 1e-15) ->
   Physics.schwarzschildStaticRate (Fin m) (Fin r) = Fin 0)
  /\ (- 1e100 <= r <= - 1e-100 ->
      exists f : R,
        Physics.schwarzschildStaticRate (Fin m) (Fin r) = Fin f /\ 1 <= f).
Proof.
  intros Hm. assert (Hm0 : 0 < m) by lra.
  pose proof (Rs_value_pos m Hm0) as Hrs.
  pose proof G_pos as HG. pose proof C_pos as HC.
  split.
  - intros [H0 H1].
    rewrite schwarzschildStaticRate_Fin by lra.
    rewrite Rleb_true; [reflexivity |].
    rewrite x_of_Rs by lra.
    apply Rmult_le_reg_r with r; [lra |].
    unfold Rdiv. rewrite Rmult_assoc, Rinv_l by lra. nra.
  - intros Hr. rewrite schwarzschildStaticRate_Fin by lra.
    assert (Hx : x_of m r < 0).
    { rewrite x_of_Rs by lra.
      assert (0 < / - r) by (apply Rinv_0_lt_compat; lra).
      unfold Rdiv. replace (/ r) with (- / - r) by (field; lra). nra. }
    rewrite Rleb_false by lra. rewrite sqrt_Fin by lra.
    eexists; split; [reflexivity |].
    rewrite <- sqrt_1 at 1. apply sqrt_le_1_alt; lra.
Qed.

Lemma schwarzschildStaticRate_inside_horizon_witness :
  Physics.schwarzschildStaticRate (Fin 1.98847e30) (Fin 1000) = Fin 0
  /\ (exists f : R,
        Physics.schwarzschildStaticRate (Fin 5.972e24) (Fin (-629000))
        = Fin f /\ 1 <= f).
Proof.
  split.
  - apply (schwarzschildStaticRate_inside_horizon 1.98847e30 1000); [lra |].
    unfold Rs_value, Physics.G_value, Physics.C_value; lra.
  - apply (schwarzschildStaticRate_inside_horizon 5.972e24 (-629000)); lra.
Defined.

Lemma x_of_bounds (m r : R) :
  0 < m -> Rs_value m < r -> 0 < x_of m r < 1.
Proof.
  intros Hm Hr. pose proof (Rs_value_pos m Hm) as Hrs.
  rewrite x_of_Rs by lra. split.
  - apply Rdiv_lt_0_compat; lra.
  - apply Rmult_lt_reg_r with r; [lra |].
    unfold Rdiv. rewrite Rmult_assoc, Rinv_l by lra. lra.
Qed.

Lemma x_of_decreasing (m r1 r2 : R) :
  0 < m -> 0 < r1 -> r1 < r2 -> x_of m r2 < x_of m r1.
Proof.
  intros Hm H1 H12. pose proof (Rs_value_pos m Hm) as Hrs.
  rewrite !x_of_Rs by lra. unfold Rdiv.
  apply Rmult_lt_compat_l; [assumption |].
  apply Rinv_lt_contravar; nra.
Qed.

Lemma schwarzschildStaticRate_outside (m r : R) :
  0 < m -> Rs_value m < r ->
  Physics.schwarzschildStaticRate (Fin m) (Fin r)
  = Fin (sqrt (1 - x_of m r)).
Proof.
  intros Hm Hr. pose proof (Rs_value_pos m Hm) as Hrs.
  destruct (x_of_bounds m r Hm Hr) as [Hx0 Hx1].
  rewrite schwarzschildStaticRate_Fin by lra.
  rewrite Rleb_false by assumption. apply sqrt_Fin. lra.
Qed.

(** X4. The exact static rate grows with the radius: for a positive mass
    and radii [0 < r1 < r2], the rate at [r1] is at most the rate at [r2],
    and strictly less as soon as [r2] lies outside the horizon. *)
Theorem schwarzschildStaticRate_increasing (m r1 r2 : R) :
  0 < m -> 0 < r1 -> r1 < r2 ->
  Num.le (Physics.schwarzschildStaticRate (Fin m) (Fin r1))
         (Physics.schwarzschildStaticRate (Fin m) (Fin r2)) = true
  /\ (Rs_value m < r2 ->
      Num.lt (Physics.schwarzschildStaticRate (Fin m) (Fin r1))
             (Physics.schwarzschildStaticRate (Fin m) (Fin r2)) = true).
Proof.
  intros Hm H1 H12. pose proof (Rs_value_pos m Hm) as Hrs.
  pose proof (x_of_decreasing m r1 r2 Hm H1 H12) as Hdec.
  pose proof (x_of_pos m r2 Hm ltac:(lra)) as Hx2.
  rewrite (schwarzschildStaticRate_Fin m r1), (schwarzschildStaticRate_Fin m r2)
    by lra.
  destruct (Rle_dec 1 (x_of m r1)) as [Hin1 | Hout1].
  - rewrite (Rleb_true 1 (x_of m r1)) by assumption.
    destruct (Rle_dec 1 (x_of m r2)) as [Hin2 | Hout2].
    + rewrite (Rleb_true 1 (x_of m r2)) by assumption. split.
      * simpl. apply Rleb_true; lra.
      * intros Hr2. destruct (x_of_bounds m r2 Hm Hr2). lra.
    + rewrite (Rleb_false 1 (x_of m r2)) by lra.
      rewrite sqrt_Fin by lra.
      assert (0 < sqrt (1 - x_of m r2)) by (apply sqrt_lt_R0; lra).
      split; [simpl; apply Rleb_true; lra | intros _; simpl; apply Rltb_true; lra].
  - rewrite (Rleb_false 1 (x_of m r1)), (Rleb_false 1 (x_of m r2)) by lra.
    rewrite !sqrt_Fin by lra.
    assert (sqrt (1 - x_of m r1) < sqrt (1 - x_of m r2))
      by (apply sqrt_lt_1; lra).
    split; [simpl; apply Rleb_true; lra | intros _; simpl; apply Rltb_true; lra].
Qed.

Lemma schwarzschildStaticRate_increasing_witness :
  Num.lt (Physics.schwarzschildStaticRate (Fin 1.98847e30) (Fin 1000))
         (Physics.schwarzschildStaticRate (Fin 1.98847e30) (Fin 6.9634e8))
  = true.
Proof.
  apply (schwarzschildStaticRate_increasing 1.98847e30 1000 6.9634e8);
    try lra.
  unfold Rs_value, Physics.G_value, Physics.C_value; lra.
Defined.

Lemma weakRate_static_Fin (m r : R) :
  r <> 0 ->
  Physics.weakRate (Physics.phi (Fin m) (Fin r)) (Fin 0)
  = Fin (1 - x_of m r / 2).
Proof.
  intros Hr. rewrite phi_Fin, weakRate_Fin by assumption.
  f_equal. unfold x_of. pose proof C_pos as HC. field. lra.
Qed.

(** X5. The two formulas for an observer at rest, for a mass and a radius
    between 1e-100 and 1e100, with [x = 2*G*m/(r*C^2)] in exact arithmetic:
    the weak-field rate is [1 - x/2] in exact arithmetic; the exact rate is
    at most the weak-field rate whenever [x <= 2 - 1e-14]; past the horizon
    ([x >= 1 + 1e-15]) the exact rate is [0], while the weak-field rate
    stays positive up to [x <= 2 - 1e-14] and is negative from
    [x >= 2 + 1e-14] on. *)
Theorem exact_against_weak (m r : R) :
  1e-100 <= m <= 1e100 -> 1e-100 <= r <= 1e100 ->
  let x := 2 * Physics.G_value * m / (r * Physics.C_value ^ 2) in
  let weak := Physics.weakRate (Physics.phi (Fin m) (Fin r)) (Fin 0) in
  let exact := Physics.schwarzschildStaticRate (Fin m) (Fin r) in
  weak = Fin (1 - x / 2)
  /\ (x <= 2 - 1e-14 -> Num.le exact weak = true)
  /\ (1 + 1e-15 <= x -> exact = Fin 0)
  /\ (1 <= x <= 2 - 1e-14 -> Num.lt (Fin 0) weak = true)
  /\ (2 + 1e-14 <= x -> Num.lt weak (Fin 0) = true).
Proof.
  intros Hm Hr x weak exact.
  assert (Hm0 : 0 < m) by lra. assert (Hr0 : 0 < r) by lra.
  assert (Hx : x = x_of m r) by (unfold x, x_of; f_equal; simpl; ring).
  pose proof (x_of_pos m r Hm0 Hr0) as Hpos.
  unfold weak, exact.
  rewrite weakRate_static_Fin, schwarzschildStaticRate_Fin by lra.
  rewrite Hx. repeat split.
  - intros H2. destruct (Rle_dec 1 (x_of m r)) as [Hin | Hout].
    + rewrite Rleb_true by assumption. simpl. apply Rleb_true. lra.
    + rewrite Rleb_false by lra. rewrite sqrt_Fin by lra.
      simpl. apply Rleb_true.
      rewrite <- (sqrt_square (1 - x_of m r / 2)) by lra.
      apply sqrt_le_1_alt; nra.
  - intros H1. rewrite Rleb_true by lra. reflexivity.
  - intros H12. simpl. apply Rltb_true. lra.
  - intros H2. simpl. apply Rltb_true. lra.
Qed.

Lemma exact_against_weak_witness :
  Num.le (Physics.schwarzschildStaticRate (Fin 5.972e24) (Fin 6.371e6))
         (Physics.weakRate (Physics.phi (Fin 5.972e24) (Fin 6.371e6)) (Fin 0))
  = true
  /\ Num.lt (Physics.weakRate (Physics.phi (Fin 1.98847e31) (Fin 3000))
              (Fin 0)) (Fin 0) = true.
Proof.
  split.
  - apply (exact_against_weak 5.972e24 6.371e6); try lra.
    unfold Physics.G_value, Physics.C_value; lra.
  - apply (exact_against_weak 1.98847e31 3000); try lra.
    unfold Physics.G_value, Physics.C_value; lra.
Defined.

(** ** The catalog *)

(** X6. Looking a catalog body up by its id returns that body: the ids are
    pairwise distinct, and an id that no entry carries is not found. *)
Theorem find_body_round_trip :
  (forall b : Physics.Body,
     In b Physics.BODIES -> App.find_body (Physics.id b) = Some b)
  /\ NoDup (map Physics.id Physics.BODIES)
  /\ (forall s : string,
        ~ In s (map Physics.id Physics.BODIES) -> App.find_body s = None).
Proof.
  repeat split.
  - apply Forall_forall. repeat constructor.
  - repeat constructor; simpl; intuition discriminate.
  - intros s Hs. unfold App.find_body.
    destruct (find (fun b => String.eqb (Physics.id b) s) Physics.BODIES)
      as [b |] eqn:Hf; [| reflexivity].
    apply find_some in Hf as [Hin Heq]. apply String.eqb_eq in Heq.
    exfalso. apply Hs. rewrite <- Heq. apply in_map. exact Hin.
Qed.

Lemma catalog_radius_vs_horizon : Forall radius_vs_horizon Physics.BODIES.
Proof.
  unfold Physics.BODIES, Physics.M_SUN, Physics.R_SUN.
  repeat constructor;
    (eexists; eexists; cbn [Physics.massKg Physics.radiusM Num.mul];
     split; [reflexivity |]; split; [reflexivity |];
     unfold Rs_value, Physics.M_SUN_value, Physics.R_SUN_value,
       Physics.G_value, Physics.C_value;
     repeat split; try lra; intros H; try discriminate H; lra).
Qed.

(** X7. Every catalog body has a finite positive mass and radius. The
    radius of every normal body lies outside its Schwarzschild radius; the
    radius recorded for a black hole lies inside it. *)
Theorem catalog_bodies_and_horizons (b : Physics.Body) :
  In b Physics.BODIES ->
  exists m rad : R,
    Physics.massKg b = Fin m /\ Physics.radiusM b = Fin rad
    /\ 0 < m /\ 0 < rad
    /\ (App.isBH b = false -> Rs_value m < rad)
    /\ (App.isBH b = true -> rad < Rs_value m).
Proof.
  intros Hin.
  exact (proj1 (Forall_forall _ _) catalog_radius_vs_horizon b Hin).
Qed.

Lemma catalog_bodies_and_horizons_witness :
  exists m rad : R,
    Physics.massKg bh10 = Fin m /\ Physics.radiusM bh10 = Fin rad
    /\ 0 < m /\ 0 < rad
    /\ (App.isBH bh10 = false -> Rs_value m < rad)
    /\ (App.isBH bh10 = true -> rad < Rs_value m).
Proof.
  apply (catalog_bodies_and_horizons bh10).
  unfold Physics.BODIES. do 9 right. left. reflexivity.
Defined.

(** ** The pipeline for a normal body *)

Lemma r_normal (body : Physics.Body) (mode : Physics.Mode) (rad alt : R)
  (rsMul : number) :
  App.isBH body = false -> Physics.radiusM body = Fin rad ->
  App.r body mode (Fin alt) rsMul
  = Fin (match mode with
         | Physics.surface => rad
         | _ => rad + alt * 1000
         end).
Proof.
  intros HBH Hrad. unfold App.r. rewrite HBH, Hrad.
  destruct mode; reflexivity.
Qed.

Lemma r_normal_ge (mode : Physics.Mode) (rad alt : R) :
  0 <= alt ->
  rad <= match mode with
         | Physics.surface => rad
         | _ => rad + alt * 1000
         end.
Proof. intros Halt. destruct mode; lra. Qed.

Lemma v_normal_static (body : Physics.Body) (mode : Physics.Mode)
  (altKm rsMul : number) :
  App.isBH body = false -> mode <> Physics.circularOrbit ->
  App.v body mode altKm rsMul = Fin 0.
Proof.
  intros HBH Hmode. unfold App.v. rewrite HBH.
  destruct mode; try reflexivity. contradiction.
Qed.

(** The orbit of a normal body at a positive resolved radius: the speed is
    positive, so the exact formula is never selected. *)
Lemma fBody_orbit (body : Physics.Body) (m rad alt : R)
  (useExactStatic : bool) (rsMul : number) :
  App.isBH body = false ->
  Physics.massKg body = Fin m -> Physics.radiusM body = Fin rad ->
  0 < m -> 0 < rad + alt * 1000 ->
  App.fBody body Physics.circularOrbit (Fin alt) useExactStatic rsMul
  = Fin (1 - 3 * Physics.G_value * m
             / (2 * (rad + alt * 1000) * Physics.C_value ^ 2)).
Proof.
  intros HBH Hmass Hrad Hm Hr.
  pose proof G_pos as HG. pose proof C_pos as HC.
  unfold App.fBody, App.v.
  rewrite HBH, (r_normal _ _ rad alt _ HBH Hrad), Hmass.
  assert (Hv : 0 < sqrt (Physics.G_value * m / (rad + alt * 1000))).
  { apply sqrt_lt_R0. apply Rdiv_lt_0_compat; [nra | assumption]. }
  rewrite (circularOrbitSpeed_Fin m (rad + alt * 1000)) by lra.
  cbn [Num.seq]. rewrite Reqb_false by lra. rewrite andb_false_r.
  rewrite <- (circularOrbitSpeed_Fin m (rad + alt * 1000)) by lra.
  rewrite phi_Fin, circularOrbitSpeed_Fin, weakRate_Fin by lra.
  rewrite sqrt_sqrt.
  - f_equal. field. lra.
  - apply Rmult_le_pos; [nra | left; apply Rinv_0_lt_compat; assumption].
Qed.

(** X8. In circular-orbit mode the exact-formula request has no effect:
    for a normal body of positive mass at a positive resolved radius [r],
    [fBody] is the weak-field orbit rate [1 - 3*G*m/(2*r*C^2)] whether or
    not the exact formula was requested. *)
Theorem orbit_ignores_exact_request
  (body : Physics.Body) (m rad alt : R) (rsMul : number) :
  App.isBH body = false ->
  Physics.massKg body = Fin m -> Physics.radiusM body = Fin rad ->
  0 < m -> 0 < rad + alt * 1000 ->
  App.fBody body Physics.circularOrbit (Fin alt) true rsMul
  = App.fBody body Physics.circularOrbit (Fin alt) false rsMul
  /\ App.fBody body Physics.circularOrbit (Fin alt) true rsMul
     = Fin (1 - 3 * Physics.G_value * m
                / (2 * (rad + alt * 1000) * Physics.C_value ^ 2)).
Proof.
  intros HBH Hmass Hrad Hm Hr.
  rewrite !(fBody_orbit body m rad alt _ rsMul HBH Hmass Hrad Hm Hr).
  split; reflexivity.
Qed.

Lemma orbit_ignores_exact_request_witness :
  App.fBody App.earth Physics.circularOrbit (Fin 20200) true (Fin 2.5)
  = App.fBody App.earth Physics.circularOrbit (Fin 20200) false (Fin 2.5).
Proof.
  apply (orbit_ignores_exact_request App.earth 5.972e24 6.371e6 20200
           (Fin 2.5));
    [reflexivity | reflexivity | reflexivity | lra | lra].
Defined.

(** The rate of a normal body whose radius lies outside its horizon, at a
    non-negative altitude: a value strictly between 0 and 1. *)
Lemma fBody_normal_range
  (body : Physics.Body) (mode : Physics.Mode) (m rad alt : R)
  (useExactStatic : bool) (rsMul : number) :
  App.isBH body = false ->
  Physics.massKg body = Fin m -> Physics.radiusM body = Fin rad ->
  0 < m -> Rs_value m < rad -> 0 <= alt ->
  exists f : R,
    App.fBody body mode (Fin alt) useExactStatic rsMul = Fin f /\ 0 < f < 1.
Proof.
  intros HBH Hmass Hrad Hm Hout Halt.
  pose proof (Rs_value_pos m Hm) as Hrs.
  pose proof G_pos as HG. pose proof C_pos as HC.
  set (rr := match mode with
             | Physics.surface => rad
             | _ => rad + alt * 1000
             end).
  assert (Hrr : rad <= rr) by (apply r_normal_ge; assumption).
  destruct (x_of_bounds m rr Hm ltac:(lra)) as [Hx0 Hx1].
  assert (Hcases : mode = Physics.circularOrbit
                   \/ mode <> Physics.circularOrbit)
    by (destruct mode; [right | right | left]; congruence).
  destruct Hcases as [-> | Hmode].
  - rewrite (fBody_orbit body m rad alt _ rsMul HBH Hmass Hrad Hm)
      by (unfold rr in Hrr; lra).
    eexists; split; [reflexivity |].
    replace (3 * Physics.G_value * m
             / (2 * (rad + alt * 1000) * Physics.C_value ^ 2))
      with (3 / 4 * x_of m (rad + alt * 1000))
      by (unfold x_of; field; unfold rr in Hrr; lra).
    unfold rr in Hx0, Hx1. lra.
  - unfold App.fBody.
    rewrite HBH, (v_normal_static _ _ _ _ HBH Hmode).
    rewrite (r_normal _ _ rad alt _ HBH Hrad), Hmass. fold rr.
    cbn [Num.seq]. rewrite Reqb_true by reflexivity.
    destruct useExactStatic; cbn [andb].
    + rewrite schwarzschildStaticRate_outside by lra.
      eexists; split; [reflexivity |]. split.
      * apply sqrt_lt_R0; lra.
      * rewrite <- sqrt_1 at 2. apply sqrt_lt_1; lra.
    + rewrite weakRate_static_Fin by lra.
      eexists; split; [reflexivity |]. lra.
Qed.

Lemma R_ratio_of_rate
  (body : Physics.Body) (mode : Physics.Mode) (altKm : number)
  (useExactStatic : bool) (rsMul : number) (f : R) :
  App.fBody body mode altKm useExactStatic rsMul = Fin f ->
  App.R_ratio body mode altKm useExactStatic rsMul = Fin (f / fEarth_value).
Proof.
  intros Hf. unfold App.R_ratio. rewrite Hf, fEarth_Fin.
  pose proof fEarth_bounds. apply div_Fin. lra.
Qed.

(** X9. Within the contract no sentinel appears: for every catalog body,
    every mode, every non-negative altitude, every exact-formula request
    and every finite multiplier, [fBody] is a finite value in [(0, 1]],
    [R] is positive and the body-second conversion is finite. *)
Theorem catalog_rate_in_range
  (b : Physics.Body) (mode : Physics.Mode) (alt k : R)
  (useExactStatic : bool) :
  In b Physics.BODIES -> 0 <= alt ->
  exists f : R,
    App.fBody b mode (Fin alt) useExactStatic (Fin k) = Fin f
    /\ 0 < f <= 1
    /\ Num.lt (Fin 0) (App.R_ratio b mode (Fin alt) useExactStatic (Fin k))
       = true
    /\ Num.isFinite
         (App.body1s_to_earth b mode (Fin alt) useExactStatic (Fin k)) = true.
Proof.
  intros Hin Halt.
  destruct (proj1 (Forall_forall _ _) catalog_radius_vs_horizon b Hin)
    as (m & rad & Hmass & Hrad & Hm & Hradpos & Hnormal & Hbh).
  assert (Hf : exists f : R,
             App.fBody b mode (Fin alt) useExactStatic (Fin k) = Fin f
             /\ 0 < f < 1).
  { destruct (App.isBH b) eqn:HBH.
    - destruct (black_hole_state b mode (Fin alt) useExactStatic m k
                  HBH Hmass Hm) as [_ Hfb].
      pose proof (clamp_ge k) as HK.
      destruct (inv_clamp_lt_1 _ HK) as ((Hi0 & Hi1) & Hi2).
      eexists; split; [exact Hfb |]. split.
      + apply sqrt_lt_R0; lra.
      + rewrite <- sqrt_1 at 2. apply sqrt_lt_1; lra.
    - apply (fBody_normal_range b mode m rad alt useExactStatic (Fin k));
        auto. }
  destruct Hf as (f & Hf & Hf0 & Hf1).
  pose proof fEarth_bounds as He.
  assert (Hq : 0 < f / fEarth_value) by (apply Rdiv_lt_0_compat; lra).
  exists f. repeat split; try assumption.
  - lra.
  - rewrite (R_ratio_of_rate _ _ _ _ _ f Hf). simpl.
    apply Rltb_true. exact Hq.
  - unfold App.body1s_to_earth.
    rewrite (R_ratio_of_rate _ _ _ _ _ f Hf). cbn [Num.seq].
    rewrite Reqb_false by lra. rewrite div_Fin by lra. reflexivity.
Qed.

Lemma catalog_rate_in_range_witness :
  exists f : R,
    App.fBody sun Physics.circularOrbit (Fin 0) true (Fin 2.5) = Fin f
    /\ 0 < f <= 1
    /\ Num.lt (Fin 0)
         (App.R_ratio sun Physics.circularOrbit (Fin 0) true (Fin 2.5)) = true
    /\ Num.isFinite
         (App.body1s_to_earth sun Physics.circularOrbit (Fin 0) true (Fin 2.5))
       = true.
Proof.
  apply (catalog_rate_in_range sun Physics.circularOrbit 0 2.5 true);
    [| lra].
  unfold Physics.BODIES. do 6 right. left. reflexivity.
Defined.

(** X10. Near a black hole only the multiplier matters: for a black-hole
    body of positive mass, [fBody] is the same in every mode, at every
    altitude field and for either exact-formula request, and its value at
    the finite multiplier [k] is [sqrt (1 - 1 / max(k, 1.0001))], in which
    the mass does not occur. *)
Theorem black_hole_rate_closed_form
  (body : Physics.Body) (mode1 mode2 : Physics.Mode) (alt1 alt2 : number)
  (ue1 ue2 : bool) (m k : R) :
  App.isBH body = true -> Physics.massKg body = Fin m -> 0 < m ->
  App.fBody body mode1 alt1 ue1 (Fin k) = App.fBody body mode2 alt2 ue2 (Fin k)
  /\ App.fBody body mode1 alt1 ue1 (Fin k)
     = Fin (sqrt (1 - 1 / Rmax k 1.0001)).
Proof.
  intros HBH Hmass Hm.
  destruct (black_hole_state body mode1 alt1 ue1 m k HBH Hmass Hm) as [_ ->].
  destruct (black_hole_state body mode2 alt2 ue2 m k HBH Hmass Hm) as [_ ->].
  split; [reflexivity |]. do 2 f_equal. unfold Rdiv. ring.
Qed.

Lemma black_hole_rate_closed_form_witness :
  App.fBody bh10 Physics.staticAltitude (Fin 0) false (Fin 2)
  = Fin (sqrt (1 - 1 / Rmax 2 1.0001)).
Proof.
  apply (black_hole_rate_closed_form bh10 Physics.staticAltitude
           Physics.surface (Fin 0) (Fin 7) false true
           (10 * Physics.M_SUN_value) 2);
    try reflexivity; unfold Physics.M_SUN_value; lra.
Defined.

(** ** Earth against Earth *)

Lemma earth_mass : Physics.massKg App.earth = Fin 5.972e24.
Proof. reflexivity. Qed.

Lemma earth_radius : Physics.radiusM App.earth = Fin 6.371e6.
Proof. reflexivity. Qed.

Lemma fEarth_value_x : fEarth_value = 1 - x_of 5.972e24 6.371e6 / 2.
Proof.
  unfold fEarth_value, x_of. pose proof C_pos as HC. field. lra.
Qed.

Lemma x_of_earth_bounds (r : R) :
  6.371e6 <= r ->
  0 < x_of 5.972e24 r
  /\ x_of 5.972e24 r <= x_of 5.972e24 6.371e6
  /\ x_of 5.972e24 6.371e6 < 1e-8.
Proof.
  intros Hr. split; [apply x_of_pos; lra |]. split.
  - destruct (Req_dec_T r 6.371e6) as [-> | Hne]; [lra |].
    left. apply x_of_decreasing; lra.
  - unfold x_of, Physics.G_value, Physics.C_value. lra.
Qed.

Lemma fBody_earth_static (alt : R) (useExactStatic : bool) (rsMul : number) :
  0 <= alt ->
  App.fBody App.earth Physics.staticAltitude (Fin alt) useExactStatic rsMul
  = if useExactStatic
    then Fin (sqrt (1 - x_of 5.972e24 (6.371e6 + alt * 1000)))
    else Fin (1 - x_of 5.972e24 (6.371e6 + alt * 1000) / 2).
Proof.
  intros Halt. unfold App.fBody.
  rewrite earth_not_BH.
  rewrite (v_normal_static _ _ _ _ earth_not_BH) by discriminate.
  rewrite (r_normal _ _ 6.371e6 alt _ earth_not_BH earth_radius), earth_mass.
  cbn [Num.seq]. rewrite Reqb_true by reflexivity.
  destruct (x_of_earth_bounds (6.371e6 + alt * 1000)) as (Hx0 & Hx1 & Hx2);
    [lra |].
  destruct useExactStatic; cbn [andb].
  - rewrite schwarzschildStaticRate_Fin by lra.
    rewrite Rleb_false by lra. apply sqrt_Fin. lra.
  - apply weakRate_static_Fin. lra.
Qed.

(** X11. Earth at rest above its own surface, without the exact formula:
    [R = 1] at altitude 0, and [R > 1] at every positive altitude. *)
Theorem earth_static_altitude (alt : R) (rsMul : number) :
  0 <= alt ->
  (alt = 0 ->
   App.R_ratio App.earth Physics.staticAltitude (Fin alt) false rsMul = Fin 1)
  /\ (0 < alt ->
      Num.lt (Fin 1)
        (App.R_ratio App.earth Physics.staticAltitude (Fin alt) false rsMul)
      = true).
Proof.
  intros Halt. pose proof fEarth_bounds as He.
  destruct (x_of_earth_bounds (6.371e6 + alt * 1000)) as (Hx0 & Hx1 & Hx2);
    [lra |].
  pose proof (fBody_earth_static alt false rsMul Halt) as Hweak.
  cbv iota in Hweak.
  rewrite (R_ratio_of_rate _ _ _ _ _ _ Hweak).
  split.
  - intros ->.
    replace (6.371e6 + 0 * 1000) with 6.371e6 in * by lra.
    rewrite <- fEarth_value_x. f_equal. field. lra.
  - intros Hpos. simpl. apply Rltb_true.
    apply Rmult_lt_reg_r with fEarth_value; [lra |].
    unfold Rdiv. rewrite Rmult_assoc, Rinv_l, Rmult_1_r, Rmult_1_l by lra.
    rewrite fEarth_value_x.
    assert (x_of 5.972e24 (6.371e6 + alt * 1000) < x_of 5.972e24 6.371e6)
      by (apply x_of_decreasing; lra).
    lra.
Qed.

Lemma earth_static_altitude_witness :
  Num.lt (Fin 1)
    (App.R_ratio App.earth Physics.staticAltitude (Fin 400) false (Fin 2.5))
  = true.
Proof.
  apply (earth_static_altitude 400 (Fin 2.5)); lra.
Defined.

Lemma R_ratio_earth_orbit (alt : R) (useExactStatic : bool) (rsMul : number) :
  0 <= alt ->
  App.R_ratio App.earth Physics.circularOrbit (Fin alt) useExactStatic rsMul
  = Fin ((1 - 3 / 4 * x_of 5.972e24 (6.371e6 + alt * 1000)) / fEarth_value).
Proof.
  intros Halt. apply R_ratio_of_rate.
  rewrite (fBody_orbit App.earth 5.972e24 6.371e6 alt useExactStatic rsMul
             earth_not_BH earth_mass earth_radius) by lra.
  f_equal. unfold x_of. pose proof C_pos as HC. field. lra.
Qed.

Lemma orbit_minus_surface (rs re rr : R) :
  re <> 0 -> rr <> 0 ->
  1 - 3 / 4 * (rs / rr) - (1 - rs / re / 2)
  = rs * (rr - 3 / 2 * re) / (2 * re * rr).
Proof. intros Hre Hrr. field. split; assumption. Qed.

(** X12. Earth in circular orbit against Earth's surface: the orbiting
    clock is faster ([R > 1]) exactly above the altitude 3185.5 km, where
    the orbit's radius is one and a half Earth radii; there [R = 1], and
    below it the orbiting clock is slower ([R < 1]). The exact-formula
    request does not matter. *)
Theorem earth_orbit_threshold
  (alt : R) (useExactStatic : bool) (rsMul : number) :
  0 <= alt ->
  let ratio := App.R_ratio App.earth Physics.circularOrbit (Fin alt)
                 useExactStatic rsMul in
  (3185.5 < alt -> Num.lt (Fin 1) ratio = true)
  /\ (alt = 3185.5 -> ratio = Fin 1)
  /\ (alt < 3185.5 -> Num.lt ratio (Fin 1) = true).
Proof.
  intros Halt ratio. unfold ratio.
  rewrite R_ratio_earth_orbit by assumption.
  pose proof fEarth_bounds as He.
  assert (Hx : forall r : R, r <> 0 ->
            x_of 5.972e24 r = Rs_value 5.972e24 / r)
    by (intros; apply x_of_Rs; assumption).
  pose proof (Rs_value_pos 5.972e24 ltac:(lra)) as Hrs.
  set (rr := 6.371e6 + alt * 1000).
  assert (Hrr : 6.371e6 <= rr) by (unfold rr; lra).
  assert (Hdiff : 1 - 3 / 4 * x_of 5.972e24 rr - fEarth_value
                  = Rs_value 5.972e24 * (rr - 3 / 2 * 6.371e6)
                    / (2 * 6.371e6 * rr)).
  { rewrite fEarth_value_x, !Hx by lra. apply orbit_minus_surface; lra. }
  assert (Hden : 0 < / (2 * 6.371e6 * rr))
    by (apply Rinv_0_lt_compat; nra).
  repeat split.
  - intros Hhi. simpl. apply Rltb_true.
    apply Rmult_lt_reg_r with fEarth_value; [lra |].
    unfold Rdiv at 1. rewrite Rmult_assoc, Rinv_l, Rmult_1_r, Rmult_1_l by lra.
    assert (0 < Rs_value 5.972e24 * (rr - 3 / 2 * 6.371e6)
                / (2 * 6.371e6 * rr)).
    { unfold Rdiv. apply Rmult_lt_0_compat; [| assumption].
      apply Rmult_lt_0_compat; [assumption | unfold rr; lra]. }
    lra.
  - intros Heq. f_equal.
    assert (Hz : rr - 3 / 2 * 6.371e6 = 0) by (unfold rr; lra).
    rewrite Hz in Hdiff.
    replace (1 - 3 / 4 * x_of 5.972e24 rr) with fEarth_value.
    + field. lra.
    + unfold Rdiv in Hdiff. rewrite Rmult_0_r, Rmult_0_l in Hdiff. lra.
  - intros Hlo. simpl. apply Rltb_true.
    apply Rmult_lt_reg_r with fEarth_value; [lra |].
    unfold Rdiv at 1. rewrite Rmult_assoc, Rinv_l, Rmult_1_r, Rmult_1_l by lra.
    assert (Rs_value 5.972e24 * (rr - 3 / 2 * 6.371e6)
            / (2 * 6.371e6 * rr) < 0).
    { unfold Rdiv.
      assert (Rs_value 5.972e24 * (rr - 3 / 2 * 6.371e6) < 0)
        by (unfold rr; nra).
      nra. }
    lra.
Qed.

Lemma earth_orbit_threshold_witness :
  Num.lt (Fin 1)
    (App.R_ratio App.earth Physics.circularOrbit (Fin 20200) false (Fin 2.5))
  = true
  /\ Num.lt
       (App.R_ratio App.earth Physics.circularOrbit (Fin 400) false (Fin 2.5))
       (Fin 1) = true.
Proof.
  split.
  - apply (earth_orbit_threshold 20200 false (Fin 2.5)); lra.
  - apply (earth_orbit_threshold 400 false (Fin 2.5)); lra.
Defined.


(** ** What the component shows *)

Lemma fmtSec_not_dash (sec : number) : App.rendered (App.fmtSec sec) <> App.dash.
Proof.
  unfold App.fmtSec.
  repeat match goal with
    | |- context [if ?c then _ else _] => destruct c
    end; simpl; discriminate.
Qed.

(** X14. The body-second conversion is shown as a dash exactly when the
    ratio [R] is [0] or [NaN]; for every other ratio, the infinite ones
    included, a formatted number is shown. *)
Theorem body_second_dash_iff
  (body : Physics.Body) (mode : Physics.Mode) (altKm : number)
  (useExactStatic : bool) (rsMul : number) :
  App.rendered (App.body1s_shown body mode altKm useExactStatic rsMul)
  = App.dash
  <-> App.R_ratio body mode altKm useExactStatic rsMul = Fin 0
      \/ App.R_ratio body mode altKm useExactStatic rsMul = NaN.
Proof.
  unfold App.body1s_shown, App.body1s_to_earth.
  destruct (App.R_ratio body mode altKm useExactStatic rsMul) as [| | | x].
  - simpl. split; [right; reflexivity | reflexivity].
  - simpl. split; [intros H; exfalso; revert H; apply fmtSec_not_dash |].
    intros [H | H]; discriminate.
  - simpl. split; [intros H; exfalso; revert H; apply fmtSec_not_dash |].
    intros [H | H]; discriminate.
  - cbn [Num.seq]. destruct (Req_dec_T x 0) as [-> | Hx].
    + rewrite Reqb_true by reflexivity. simpl.
      split; [left; reflexivity | reflexivity].
    + rewrite Reqb_false by assumption. rewrite div_Fin by assumption.
      cbn [Num.isFinite].
      split; [intros H; exfalso; revert H; apply fmtSec_not_dash |].
      intros [H | H]; [injection H as H; contradiction | discriminate].
Qed.

(** X15. The line under [R] reads "about the same as Earth" exactly when
    [R] is [1] or [NaN]; it reads "faster" exactly when [R > 1] and
    "slower" exactly when [R < 1]. *)
Theorem verdict_cases
  (body : Physics.Body) (mode : Physics.Mode) (altKm : number)
  (useExactStatic : bool) (rsMul : number) :
  let ratio := App.R_ratio body mode altKm useExactStatic rsMul in
  let shown := App.verdict body mode altKm useExactStatic rsMul in
  (shown = App.same <-> ratio = Fin 1 \/ ratio = NaN)
  /\ (shown = App.faster <-> Num.lt (Fin 1) ratio = true)
  /\ (shown = App.slower <-> Num.lt ratio (Fin 1) = true).
Proof.
  intros ratio shown. unfold shown, App.verdict. fold ratio.
  destruct ratio as [| | | x]; simpl.
  - repeat split; intros; try discriminate; auto.
  - repeat split; intros H; try discriminate; auto.
    destruct H; discriminate.
  - repeat split; intros H; try discriminate; auto.
    destruct H; discriminate.
  - destruct (Rtotal_order 1 x) as [Hlt | [Heq | Hgt]].
    + rewrite (Rltb_true 1 x) by assumption.
      repeat split; intros H; try discriminate; auto.
      * destruct H as [H | H]; [injection H as H; lra | discriminate].
      * rewrite Rltb_false in H by lra. discriminate.
    + subst x. rewrite !Rltb_false by lra.
      repeat split; intros H; try discriminate; auto.
    + rewrite (Rltb_false 1 x), (Rltb_true x 1) by lra.
      repeat split; intros H; try discriminate; auto.
      destruct H as [H | H]; [injection H as H; lra | discriminate].
Qed.

(** X16. The exact-formula checkbox against the formula in use. Whenever
    the box is enabled, it is checked exactly when [fBody] is the exact
    static rate. For a normal body with a non-zero speed and the exact
    formula requested, the box is shown checked and disabled while [fBody]
    is the weak-field rate. *)
Theorem exact_checkbox
  (body : Physics.Body) (mode : Physics.Mode) (altKm : number)
  (useExactStatic : bool) (rsMul : number) :
  let r := App.r body mode altKm rsMul in
  let v := App.v body mode altKm rsMul in
  let m := Physics.massKg body in
  let exact := Physics.schwarzschildStaticRate m r in
  let weak := Physics.weakRate (Physics.phi m r) v in
  let f := App.fBody body mode altKm useExactStatic rsMul in
  (App.exactDisabled body mode altKm rsMul = false ->
   f = if App.exactChecked body useExactStatic then exact else weak)
  /\ (App.isBH body = false -> useExactStatic = true -> v <> Fin 0 ->
      App.exactChecked body useExactStatic = true
      /\ App.exactDisabled body mode altKm rsMul = true
      /\ f = weak).
Proof.
  intros r v m exact weak f.
  unfold f, exact, weak, App.fBody, App.exactDisabled, App.exactChecked.
  fold r v m. split.
  - intros Hd. apply orb_false_elim in Hd as [HBH Hv].
    rewrite HBH. apply negb_false_iff in Hv. rewrite Hv.
    destruct useExactStatic; reflexivity.
  - intros HBH -> Hv. rewrite HBH.
    assert (Hs : (v === Fin 0)%num = false).
    { destruct (v === Fin 0)%num eqn:E; [| reflexivity].
      apply seq_zero_iff in E. contradiction. }
    rewrite Hs. repeat split.
Qed.

Lemma exact_checkbox_witness :
  App.exactChecked App.earth true = true
  /\ App.exactDisabled App.earth Physics.circularOrbit (Fin 20200) (Fin 2.5)
     = true
  /\ App.fBody App.earth Physics.circularOrbit (Fin 20200) true (Fin 2.5)
     = Physics.weakRate
         (Physics.phi (Physics.massKg App.earth)
            (App.r App.earth Physics.circularOrbit (Fin 20200) (Fin 2.5)))
         (App.v App.earth Physics.circularOrbit (Fin 20200) (Fin 2.5)).
Proof.
  apply (exact_checkbox App.earth Physics.circularOrbit (Fin 20200) true
           (Fin 2.5));
    [reflexivity | reflexivity |].
  change (App.v App.earth Physics.circularOrbit (Fin 20200) (Fin 2.5))
    with (Physics.circularOrbitSpeed (Fin 5.972e24)
            (Fin (6.371e6 + 20200 * 1000))).
  rewrite circularOrbitSpeed_Fin by lra.
  intros H. injection H as H.
  assert (0 < sqrt (Physics.G_value * 5.972e24 / (6.371e6 + 20200 * 1000))).
  { apply sqrt_lt_R0. unfold Physics.G_value. lra. }
  lra.
Defined.

(** ** The effect on a black hole *)

Lemma max_idempotent (a b : number) : Num.max (Num.max a b) b = Num.max a b.
Proof.
  destruct a as [| | | x], b as [| | | y]; simpl; try reflexivity.
  - unfold Rleb. destruct (Rle_dec y y); reflexivity.
  - unfold Rleb. destruct (Rle_dec x y) as [H | H]; simpl.
    + unfold Rleb. destruct (Rle_dec y y); reflexivity.
    + unfold Rleb. destruct (Rle_dec x y); [contradiction | reflexivity].
Qed.



(** ** The hue shift, continued *)

Lemma hue_magnitude_saturates (d : R) :
  2.5e-9 <= Rabs d -> Rmin 1 (sqrt (Rabs d) * 2e4) = 1.
Proof.
  intros Hd. apply Rmin_left.
  assert (Hs : sqrt (5e-5 * 5e-5) <= sqrt (Rabs d))
    by (apply sqrt_le_1_alt; lra).
  rewrite sqrt_square in Hs by lra. lra.
Qed.

Lemma hue_magnitude_below (d : R) :
  Rabs d < 2.5e-9 ->
  Rmin 1 (sqrt (Rabs d) * 2e4) = sqrt (Rabs d) * 2e4
  /\ sqrt (Rabs d) * 2e4 < 1.
Proof.
  intros Hd.
  assert (Hs : sqrt (Rabs d) < sqrt (5e-5 * 5e-5))
    by (apply sqrt_lt_1; [apply Rabs_pos | lra | lra]).
  rewrite sqrt_square in Hs by lra.
  split; [apply Rmin_right; lra | lra].
Qed.

(** X19. The hue shift saturates at a relative difference of 2.5e-9: it is
    exactly [1] for every finite [R >= 1 + 2.5e-9], exactly [-1] for every
    finite [R <= 1 - 2.5e-9], and for the ratios in between it is
    [sign (R-1) * sqrt |R-1| * 2e4], of magnitude below 1. *)
Theorem hueShift_saturation (x : R) :
  (2.5e-9 <= x - 1 -> App.hueShiftFromRatio (Fin x) = Fin 1)
  /\ (x - 1 <= -2.5e-9 -> App.hueShiftFromRatio (Fin x) = Fin (-1))
  /\ (Rabs (x - 1) < 2.5e-9 ->
      App.hueShiftFromRatio (Fin x)
      = Fin (Rsign (x - 1) * (sqrt (Rabs (x - 1)) * 2e4))
      /\ Rabs (Rsign (x - 1) * (sqrt (Rabs (x - 1)) * 2e4)) < 1).
Proof.
  repeat split.
  - intros Hd. rewrite hueShiftFromRatio_Fin.
    rewrite hue_magnitude_saturates by (rewrite Rabs_right; lra).
    rewrite Rleb_true by lra. f_equal. ring.
  - intros Hd. rewrite hueShiftFromRatio_Fin.
    rewrite hue_magnitude_saturates by (rewrite Rabs_left; lra).
    rewrite Rleb_false by lra. f_equal. ring.
  - destruct (hueShift_real x) as [-> _].
    destruct (hue_magnitude_below _ H) as [-> _]. reflexivity.
  - destruct (hue_magnitude_below _ H) as [_ Hlt].
    assert (Hs0 : 0 <= sqrt (Rabs (x - 1)) * 2e4)
      by (apply Rmult_le_pos; [apply sqrt_pos | lra]).
    unfold Rsign.
    destruct (Rtotal_order 0 (x - 1)) as [Hp | [Hz | Hn]].
    + rewrite Rltb_true by lra. rewrite Rabs_right; lra.
    + rewrite !Rltb_false by lra. rewrite Rmult_0_l, Rabs_R0. lra.
    + rewrite Rltb_false, Rltb_true by lra.
      rewrite Rabs_left1; lra.
Qed.

Lemma hueShift_saturation_witness :
  App.hueShiftFromRatio (Fin 2) = Fin 1
  /\ App.hueShiftFromRatio (Fin 0) = Fin (-1).
Proof.
  split.
  - apply (hueShift_saturation 2). lra.
  - apply (hueShift_saturation 0). lra.
Defined.

Lemma hue_real_monotone (x y : R) :
  x <= y ->
  Rsign (x - 1) * Rmin 1 (sqrt (Rabs (x - 1)) * 2e4)
  <= Rsign (y - 1) * Rmin 1 (sqrt (Rabs (y - 1)) * 2e4).
Proof.
  intros Hxy.
  assert (Hpos : forall d : R, 0 <= Rmin 1 (sqrt (Rabs d) * 2e4)).
  { intros d. apply Rmin_glb; [lra |].
    apply Rmult_le_pos; [apply sqrt_pos | lra]. }
  assert (Hmono : forall a b : R, Rabs a <= Rabs b ->
            Rmin 1 (sqrt (Rabs a) * 2e4) <= Rmin 1 (sqrt (Rabs b) * 2e4)).
  { intros a b Hab. apply Rle_min_compat_l.
    apply Rmult_le_compat_r; [lra |].
    apply sqrt_le_1_alt. exact Hab. }
  pose proof (Hpos (x - 1)) as Hx0. pose proof (Hpos (y - 1)) as Hy0.
  unfold Rsign.
  destruct (Rtotal_order 0 (x - 1)) as [Hxp | [Hxz | Hxn]].
  - rewrite (Rltb_true 0 (x - 1)), (Rltb_true 0 (y - 1)) by lra.
    assert (Rmin 1 (sqrt (Rabs (x - 1)) * 2e4)
            <= Rmin 1 (sqrt (Rabs (y - 1)) * 2e4))
      by (apply Hmono; rewrite !Rabs_right; lra).
    lra.
  - rewrite !(Rltb_false _ (x - 1)), (Rltb_false (x - 1)) by lra.
    destruct (Rtotal_order 0 (y - 1)) as [Hyp | [Hyz | Hyn]]; [| | lra].
    + rewrite (Rltb_true 0 (y - 1)) by lra. lra.
    + rewrite !Rltb_false by lra. lra.
  - rewrite (Rltb_false 0 (x - 1)), (Rltb_true (x - 1) 0) by lra.
    destruct (Rtotal_order 0 (y - 1)) as [Hyp | [Hyz | Hyn]].
    + rewrite (Rltb_true 0 (y - 1)) by lra. lra.
    + rewrite !Rltb_false by lra. lra.
    + rewrite (Rltb_false 0 (y - 1)), (Rltb_true (y - 1) 0) by lra.
      assert (Rmin 1 (sqrt (Rabs (y - 1)) * 2e4)
              <= Rmin 1 (sqrt (Rabs (x - 1)) * 2e4))
        by (apply Hmono; rewrite !Rabs_left; lra).
      lra.
Qed.

(** X20. The hue shift never decreases as [R] grows: for finite ratios
    [x <= y], the shift at [x] is at most the shift at [y]. *)
Theorem hueShift_monotone (x y : R) :
  x <= y ->
  Num.le (App.hueShiftFromRatio (Fin x)) (App.hueShiftFromRatio (Fin y))
  = true.
Proof.
  intros Hxy.
  destruct (hueShift_real x) as [-> _].
  destruct (hueShift_real y) as [-> _].
  simpl. apply Rleb_true. apply hue_real_monotone. exact Hxy.
Qed.

Lemma hueShift_monotone_witness :
  Num.le (App.hueShiftFromRatio (Fin 0.5)) (App.hueShiftFromRatio (Fin 1))
  = true.
Proof. apply (hueShift_monotone 0.5 1). lra. Defined.

(** X21. Near a black hole the display is saturated red: for every
    black-hole body of positive mass and every multiplier up to 1e8, far
    beyond the slider's maximum of 50, [R < 1], the verdict is "slower"
    and the hue shift is exactly [-1]. *)
Theorem black_hole_hue_saturated
  (body : Physics.Body) (mode : Physics.Mode) (altKm : number)
  (useExactStatic : bool) (m k : R) :
  App.isBH body = true -> Physics.massKg body = Fin m -> 0 < m ->
  k <= 1e8 ->
  Num.lt (App.R_ratio body mode altKm useExactStatic (Fin k)) (Fin 1) = true
  /\ App.verdict body mode altKm useExactStatic (Fin k) = App.slower
  /\ App.hueShift body mode altKm useExactStatic (Fin k) = Fin (-1).
Proof.
  intros HBH Hmass Hm Hk.
  destruct (black_hole_state body mode altKm useExactStatic m k HBH Hmass Hm)
    as [_ Hf].
  pose proof (clamp_ge k) as HK.
  destruct (inv_clamp_lt_1 _ HK) as ((Hi0 & Hi1) & Hi2).
  assert (HK8 : Rmax k 1.0001 <= 1e8) by (apply Rmax_lub; lra).
  assert (Hinv : 1e-8 <= / Rmax k 1.0001).
  { replace 1e-8 with (/ 1e8) by lra. apply Rinv_le_contravar; lra. }
  set (f := sqrt (1 - / Rmax k 1.0001)) in *.
  assert (Hfle : f <= 1 - 5e-9).
  { unfold f. rewrite <- (sqrt_square (1 - 5e-9)) by lra.
    apply sqrt_le_1_alt. nra. }
  assert (Hf0 : 0 < f) by (apply sqrt_lt_R0; lra).
  pose proof fEarth_bounds as He.
  assert (He9 : 1 - 1e-9 <= fEarth_value)
    by (unfold fEarth_value, Physics.G_value, Physics.C_value; lra).
  assert (Hq : f / fEarth_value - 1 <= -2.5e-9).
  { assert (Hqf : f / fEarth_value * fEarth_value = f) by (field; lra).
    assert (f / fEarth_value <= 1 - 2.5e-9); [| lra].
    apply Rmult_le_reg_r with fEarth_value; [lra |].
    rewrite Hqf. nra. }
  pose proof (R_ratio_of_rate _ _ _ _ _ f Hf) as HR.
  assert (Hlt : Num.lt (App.R_ratio body mode altKm useExactStatic (Fin k))
                  (Fin 1) = true)
    by (rewrite HR; simpl; apply Rltb_true; lra).
  repeat split.
  - exact Hlt.
  - unfold App.verdict. rewrite Hlt. rewrite HR. simpl.
    rewrite Rltb_false by lra. reflexivity.
  - unfold App.hueShift. rewrite HR. rewrite hueShiftFromRatio_Fin.
    rewrite hue_magnitude_saturates by (rewrite Rabs_left; lra).
    rewrite Rleb_false by lra. f_equal. ring.
Qed.

Lemma black_hole_hue_saturated_witness :
  App.hueShift bh10 Physics.staticAltitude (Fin 0) false (Fin 50) = Fin (-1).
Proof.
  apply (black_hole_hue_saturated bh10 Physics.staticAltitude (Fin 0) false
           (10 * Physics.M_SUN_value) 50);
    [reflexivity | reflexivity | unfold Physics.M_SUN_value; lra | lra].
Defined.

(** ** Choosing the unit *)

Ltac band_cases x :=
  destruct (Rle_dec 1 (Rabs x));
  [ left
  | right; destruct (Rle_dec 1e-3 (Rabs x));
    [ left
    | right; destruct (Rle_dec 1e-6 (Rabs x));
      [ left
      | right; destruct (Rle_dec 1e-9 (Rabs x)); [left | right] ] ] ];
  (split; [lra |]).

Lemma fmtPerDay_band (x : R) :
  shown_in_band [" s/day"; " ms/day"; " µs/day"; " ns/day"]%string 3
    (App.fmtPerDay (Fin x)) x.
Proof.
  unfold shown_in_band, App.fmtPerDay, Num.ge. cbn [Num.abs Num.le Num.mul nth].
  band_cases x; Rtests; reflexivity.
Qed.

Lemma fmtSec_band (x : R) :
  shown_in_band [" s"; " ms"; " µs"; " ns"]%string 6 (App.fmtSec (Fin x)) x.
Proof.
  unfold shown_in_band, App.fmtSec, Num.ge. cbn [Num.abs Num.le Num.mul nth].
  band_cases x; Rtests; reflexivity.
Qed.

Lemma scaled_magnitude (x lo s : R) :
  0 < s -> lo <= Rabs x < lo * 1000 -> lo * s = 1 ->
  1 <= Rabs (x * s) < 1000.
Proof.
  intros Hs Hx Hlo. rewrite Rabs_mult, (Rabs_right s) by lra. nra.
Qed.

Lemma band_properties (suffixes : list string) (digits : nat)
  (t t' : App.Text) (x : R) :
  shown_in_band suffixes digits t x ->
  shown_in_band suffixes digits t' (- x) ->
  App.unit t' = App.unit t
  /\ (forall (y : number) (d : nat),
        App.rendered t = App.toFixed y d ->
        App.unit t <> nth 0 suffixes ""%string ->
        exists z : R, y = Fin z /\ 1 <= Rabs z < 1000)
  /\ (forall (y : number) (d : nat),
        App.rendered t = App.toExponential y d ->
        Rabs x < 1e-9 /\ App.unit t = nth 0 suffixes ""%string).
Proof.
  intros Ht Ht'. unfold shown_in_band in Ht, Ht'.
  rewrite !Rabs_Ropp in Ht'.
  destruct Ht as [[Hb ->] | [[Hb ->] | [[Hb ->] | [[Hb ->] | [Hb ->]]]]];
    (split;
     [ destruct Ht' as [[Hb' ->] | [[Hb' ->] | [[Hb' ->] | [[Hb' ->]
                          | [Hb' ->]]]]];
       try reflexivity; exfalso; lra
     | split; intros y d Hy; cbn [App.rendered App.unit] in *;
       try discriminate Hy ]).
  - intros Hu. exfalso. apply Hu. reflexivity.
  - intros _. injection Hy as <- _. eexists; split; [reflexivity |].
    apply (scaled_magnitude x 1e-3 1e3); lra.
  - intros _. injection Hy as <- _. eexists; split; [reflexivity |].
    apply (scaled_magnitude x 1e-6 1e6); lra.
  - intros _. injection Hy as <- _. eexists; split; [reflexivity |].
    apply (scaled_magnitude x 1e-9 1e9); lra.
  - split; [exact Hb | reflexivity].
Qed.

(** X18. How [fmtPerDay] and [fmtSec] choose the unit of a finite value:
    the unit depends on the magnitude only (a value and its negation get
    the same unit); whenever a sub-unit (ms, µs, ns) is chosen, the number
    handed to [toFixed] has a magnitude in [[1, 1000)]; exponent notation,
    in seconds, is used only for magnitudes below 1e-9. *)
Theorem fmt_unit_selection (x : R) :
  (App.unit (App.fmtPerDay (Fin (- x))) = App.unit (App.fmtPerDay (Fin x))
   /\ (forall (y : number) (d : nat),
         App.rendered (App.fmtPerDay (Fin x)) = App.toFixed y d ->
         App.unit (App.fmtPerDay (Fin x)) <> " s/day"%string ->
         exists z : R, y = Fin z /\ 1 <= Rabs z < 1000)
   /\ (forall (y : number) (d : nat),
         App.rendered (App.fmtPerDay (Fin x)) = App.toExponential y d ->
         Rabs x < 1e-9
         /\ App.unit (App.fmtPerDay (Fin x)) = " s/day"%string))
  /\ (App.unit (App.fmtSec (Fin (- x))) = App.unit (App.fmtSec (Fin x))
      /\ (forall (y : number) (d : nat),
            App.rendered (App.fmtSec (Fin x)) = App.toFixed y d ->
            App.unit (App.fmtSec (Fin x)) <> " s"%string ->
            exists z : R, y = Fin z /\ 1 <= Rabs z < 1000)
      /\ (forall (y : number) (d : nat),
            App.rendered (App.fmtSec (Fin x)) = App.toExponential y d ->
            Rabs x < 1e-9 /\ App.unit (App.fmtSec (Fin x)) = " s"%string)).
Proof.
  split.
  - apply (band_properties
             [" s/day"; " ms/day"; " µs/day"; " ns/day"]%string 3
             (App.fmtPerDay (Fin x)) (App.fmtPerDay (Fin (- x))) x).
    + apply fmtPerDay_band.
    + apply fmtPerDay_band.
  - apply (band_properties [" s"; " ms"; " µs"; " ns"]%string 6
             (App.fmtSec (Fin x)) (App.fmtSec (Fin (- x))) x).
    + apply fmtSec_band.
    + apply fmtSec_band.
Qed.

(** ** The lensing strength *)

Lemma ln_10_pos : 0 < ln 10.
Proof. rewrite <- ln_1. apply ln_increasing; lra. Qed.

Lemma ln_le_compat (x y : R) : 0 < x -> x <= y -> ln x <= ln y.
Proof.
  intros Hx [Hlt | ->]; [left; apply ln_increasing; assumption | lra].
Qed.

Lemma lens_ratio_pos (m rad : R) : 1e-20 <= lens_ratio m rad.
Proof. apply Rmax_r. Qed.

Lemma floor_radius_pos (rad : R) : 1e-3 <= Rmax rad 1e-3.
Proof. apply Rmax_r. Qed.

Lemma strengthFromMassRadius_Fin (m rad : R) :
  Visuals.strengthFromMassRadius (Fin m) (Fin rad)
  = Fin (Rmin 1 (Rmax 0 (lens_level m rad))).
Proof.
  unfold Visuals.strengthFromMassRadius.
  change ((Fin 2 * Physics.G * Fin m) / (Physics.C * Physics.C))%num
    with (Physics.schwarzschildRadius (Fin m)).
  rewrite schwarzschildRadius_Fin, max_Fin.
  pose proof (floor_radius_pos rad) as Hfl.
  rewrite div_Fin by lra. rewrite max_Fin. fold (lens_ratio m rad).
  pose proof (lens_ratio_pos m rad) as Hq.
  cbn [Num.log10]. rewrite Rltb_false, Reqb_false by lra.
  change (Fin (ln (lens_ratio m rad) / ln 10) - Fin (-9.5))%num
    with (Fin (ln (lens_ratio m rad) / ln 10 - -9.5)).
  change (Fin (-5.0) - Fin (-9.5))%num with (Fin (-5.0 - -9.5)).
  rewrite div_Fin by lra. rewrite max_Fin, min_Fin. reflexivity.
Qed.

Lemma clamp_unit (s : R) : 0 <= Rmin 1 (Rmax 0 s) <= 1.
Proof.
  split; [apply Rmin_glb; [lra | apply Rmax_l] | apply Rmin_l].
Qed.

Lemma strength_floored (m D : R) (radiusM : number) :
  Num.max radiusM (Fin 1e-3) = Fin D -> 0 < D ->
  exists s : R,
    Visuals.strengthFromMassRadius (Fin m) radiusM = Fin s /\ 0 <= s <= 1.
Proof.
  intros HD HDpos. unfold Visuals.strengthFromMassRadius.
  change ((Fin 2 * Physics.G * Fin m) / (Physics.C * Physics.C))%num
    with (Physics.schwarzschildRadius (Fin m)).
  rewrite schwarzschildRadius_Fin, HD.
  rewrite div_Fin by lra. rewrite max_Fin.
  assert (Hq : 1e-20 <= Rmax (Rs_value m / D) 1e-20) by apply Rmax_r.
  cbn [Num.log10]. rewrite Rltb_false, Reqb_false by lra.
  change (Fin (ln (Rmax (Rs_value m / D) 1e-20) / ln 10) - Fin (-9.5))%num
    with (Fin (ln (Rmax (Rs_value m / D) 1e-20) / ln 10 - -9.5)).
  change (Fin (-5.0) - Fin (-9.5))%num with (Fin (-5.0 - -9.5)).
  rewrite div_Fin by lra. rewrite max_Fin, min_Fin.
  eexists; split; [reflexivity | apply clamp_unit].
Qed.

(** X22. The lensing strength is a finite value in [[0, 1]] for every
    finite mass (of either sign) and every radius that is a number, finite
    (zero and negative included) or infinite; for a [NaN] radius it is
    [NaN]. *)
Theorem strength_in_unit_interval (m : R) (radiusM : number) :
  (radiusM <> NaN ->
   exists s : R,
     Visuals.strengthFromMassRadius (Fin m) radiusM = Fin s /\ 0 <= s <= 1)
  /\ (radiusM = NaN -> Visuals.strengthFromMassRadius (Fin m) radiusM = NaN).
Proof.
  split.
  - intros Hnan. destruct radiusM as [| | | rad].
    + contradiction.
    + (* an infinite radius: the ratio is 0, floored to 1e-20 *)
      unfold Visuals.strengthFromMassRadius.
      change ((Fin 2 * Physics.G * Fin m) / (Physics.C * Physics.C))%num
        with (Physics.schwarzschildRadius (Fin m)).
      rewrite schwarzschildRadius_Fin.
      change (Num.max PInf (Fin 1e-3)) with PInf.
      change (Fin (Rs_value m) / PInf)%num with (Fin 0).
      rewrite max_Fin.
      assert (Hq : 1e-20 <= Rmax 0 1e-20) by apply Rmax_r.
      cbn [Num.log10]. rewrite Rltb_false, Reqb_false by lra.
      change (Fin (ln (Rmax 0 1e-20) / ln 10) - Fin (-9.5))%num
        with (Fin (ln (Rmax 0 1e-20) / ln 10 - -9.5)).
      change (Fin (-5.0) - Fin (-9.5))%num with (Fin (-5.0 - -9.5)).
      rewrite div_Fin by lra. rewrite max_Fin, min_Fin.
      eexists; split; [reflexivity | apply clamp_unit].
    + (* minus infinity: floored to 1e-3 *)
      apply (strength_floored m 1e-3); [reflexivity | lra].
    + apply (strength_floored m (Rmax rad 1e-3)); [apply max_Fin |].
      pose proof (floor_radius_pos rad). lra.
  - intros ->. unfold Visuals.strengthFromMassRadius.
    change ((Fin 2 * Physics.G * Fin m) / (Physics.C * Physics.C))%num
      with (Physics.schwarzschildRadius (Fin m)).
    rewrite schwarzschildRadius_Fin. reflexivity.
Qed.

Lemma strength_in_unit_interval_witness :
  exists s : R,
    Visuals.strengthFromMassRadius (Fin 5.972e24) (Fin (-629000)) = Fin s
    /\ 0 <= s <= 1.
Proof.
  apply (strength_in_unit_interval 5.972e24 (Fin (-629000))). discriminate.
Defined.

Lemma clamp_unit_monotone (s t : R) :
  s <= t -> Rmin 1 (Rmax 0 s) <= Rmin 1 (Rmax 0 t).
Proof.
  intros Hst. apply Rle_min_compat_l. apply Rle_max_compat_l. exact Hst.
Qed.

Lemma lens_level_monotone (m1 m2 rad1 rad2 : R) :
  lens_ratio m1 rad2 <= lens_ratio m2 rad1 ->
  lens_level m1 rad2 <= lens_level m2 rad1.
Proof.
  intros Hq. unfold lens_level.
  pose proof ln_10_pos as H10.
  pose proof (lens_ratio_pos m1 rad2) as Hq1.
  assert (Hln : ln (lens_ratio m1 rad2) <= ln (lens_ratio m2 rad1))
    by (apply ln_le_compat; lra).
  assert (Hdiv : ln (lens_ratio m1 rad2) / ln 10
                 <= ln (lens_ratio m2 rad1) / ln 10).
  { unfold Rdiv. apply Rmult_le_compat_r; [| exact Hln].
    left. apply Rinv_0_lt_compat. exact H10. }
  unfold Rdiv at 1 3. apply Rmult_le_compat_r; [| lra].
  left. apply Rinv_0_lt_compat. lra.
Qed.

Lemma Rs_value_monotone (m1 m2 : R) : m1 <= m2 -> Rs_value m1 <= Rs_value m2.
Proof.
  intros Hm. unfold Rs_value. pose proof CC_pos as HC. pose proof G_pos as HG.
  unfold Rdiv. apply Rmult_le_compat_r; [| nra].
  left. apply Rinv_0_lt_compat. exact HC.
Qed.

Lemma lens_ratio_monotone (m1 m2 rad1 rad2 : R) :
  m1 <= m2 -> rad1 <= rad2 -> lens_ratio m1 rad2 <= lens_ratio m2 rad1.
Proof.
  intros Hm Hrad. unfold lens_ratio.
  pose proof (floor_radius_pos rad1) as H1.
  pose proof (floor_radius_pos rad2) as H2.
  assert (HD : Rmax rad1 1e-3 <= Rmax rad2 1e-3)
    by (apply Rle_max_compat_r; exact Hrad).
  pose proof (Rs_value_monotone m1 m2 Hm) as Hrs.
  assert (Hi1 : 0 < / Rmax rad1 1e-3) by (apply Rinv_0_lt_compat; lra).
  assert (Hi2 : 0 < / Rmax rad2 1e-3) by (apply Rinv_0_lt_compat; lra).
  assert (Hi : / Rmax rad2 1e-3 <= / Rmax rad1 1e-3)
    by (apply Rinv_le_contravar; lra).
  destruct (Rle_dec 0 (Rs_value m1)) as [Hpos | Hneg].
  - apply Rle_max_compat_r. unfold Rdiv. nra.
  - apply Rmax_lub; [| apply Rmax_r].
    apply Rle_trans with 0; [unfold Rdiv; nra |].
    apply Rle_trans with 1e-20; [lra | apply Rmax_r].
Qed.

(** X23. The lensing strength never decreases with more mass or with a
    smaller radius: for finite masses [m1 <= m2] and radii
    [rad1 <= rad2], the strength of [m1] at [rad2] is at most the strength
    of [m2] at [rad1]. *)
Theorem strength_monotone (m1 m2 rad1 rad2 : R) :
  m1 <= m2 -> rad1 <= rad2 ->
  Num.le (Visuals.strengthFromMassRadius (Fin m1) (Fin rad2))
         (Visuals.strengthFromMassRadius (Fin m2) (Fin rad1)) = true.
Proof.
  intros Hm Hrad. rewrite !strengthFromMassRadius_Fin. simpl.
  apply Rleb_true. apply clamp_unit_monotone. apply lens_level_monotone.
  apply lens_ratio_monotone; assumption.
Qed.

Lemma strength_monotone_witness :
  Num.le (Visuals.strengthFromMassRadius (Fin 5.972e24) (Fin 6.371e6))
         (Visuals.strengthFromMassRadius (Fin 1.98847e30) (Fin 12000)) = true.
Proof.
  apply (strength_monotone 5.972e24 1.98847e30 12000 6.371e6); lra.
Defined.

Lemma ln_inv_pow10 (n : nat) : ln (/ 10 ^ n) = - INR n * ln 10.
Proof.
  rewrite ln_Rinv by (apply pow_lt; lra).
  rewrite ln_pow by lra. ring.
Qed.

Lemma lens_level_ge_1 (m rad : R) :
  1 <= lens_level m rad <-> 1e-5 <= lens_ratio m rad.
Proof.
  pose proof ln_10_pos as H10.
  pose proof (lens_ratio_pos m rad) as Hq.
  assert (H5 : ln 1e-5 = -5 * ln 10).
  { replace 1e-5 with (/ 10 ^ 5) by lra. rewrite ln_inv_pow10. simpl. ring. }
  assert (Hlevel : 1 <= lens_level m rad
                   <-> ln 1e-5 <= ln (lens_ratio m rad)).
  { unfold lens_level. rewrite H5. split; intros H.
    - assert (-5 <= ln (lens_ratio m rad) / ln 10) by lra.
      apply Rmult_le_compat_r with (r := ln 10) in H0; [| lra].
      unfold Rdiv in H0. rewrite Rmult_assoc, Rinv_l, Rmult_1_r in H0 by lra.
      exact H0.
    - assert (-5 <= ln (lens_ratio m rad) / ln 10); [| lra].
      apply Rmult_le_reg_r with (ln 10); [lra |].
      unfold Rdiv. rewrite Rmult_assoc, Rinv_l, Rmult_1_r by lra. exact H. }
  rewrite Hlevel. split; intros H.
  - destruct (Rle_dec 1e-5 (lens_ratio m rad)) as [Hle | Hnle];
      [exact Hle |].
    assert (ln (lens_ratio m rad) < ln 1e-5)
      by (apply ln_increasing; lra).
    lra.
  - apply ln_le_compat; lra.
Qed.

Lemma lens_level_le_0 (m rad : R) :
  lens_level m rad <= 0 <-> lens_ratio m rad * lens_ratio m rad <= 1e-19.
Proof.
  pose proof ln_10_pos as H10.
  pose proof (lens_ratio_pos m rad) as Hq.
  set (q := lens_ratio m rad) in *.
  assert (H19 : ln 1e-19 = -19 * ln 10).
  { replace 1e-19 with (/ 10 ^ 19) by lra. rewrite ln_inv_pow10.
    replace (INR 19) with 19 by (simpl; lra). ring. }
  assert (Hqq : ln (q * q) = 2 * ln q) by (rewrite ln_mult by lra; ring).
  assert (Hlevel : lens_level m rad <= 0 <-> ln (q * q) <= ln 1e-19).
  { unfold lens_level. fold q. rewrite H19, Hqq. split; intros H.
    - assert (ln q / ln 10 <= -9.5) by lra.
      apply Rmult_le_compat_r with (r := ln 10) in H0; [| lra].
      unfold Rdiv in H0. rewrite Rmult_assoc, Rinv_l, Rmult_1_r in H0 by lra.
      lra.
    - assert (ln q / ln 10 <= -9.5); [| lra].
      apply Rmult_le_reg_r with (ln 10); [lra |].
      unfold Rdiv. rewrite Rmult_assoc, Rinv_l, Rmult_1_r by lra. lra. }
  rewrite Hlevel. split; intros H.
  - destruct (Rle_dec (q * q) 1e-19) as [Hle | Hnle]; [exact Hle |].
    assert (ln 1e-19 < ln (q * q)) by (apply ln_increasing; lra).
    lra.
  - apply ln_le_compat; [nra | exact H].
Qed.

Lemma clamp_unit_one (s : R) : Rmin 1 (Rmax 0 s) = 1 <-> 1 <= s.
Proof.
  unfold Rmin, Rmax.
  destruct (Rle_dec 0 s); destruct (Rle_dec 1 s); destruct (Rle_dec 1 0);
    split; intros; lra.
Qed.

Lemma clamp_unit_zero (s : R) : Rmin 1 (Rmax 0 s) = 0 <-> s <= 0.
Proof.
  unfold Rmin, Rmax.
  destruct (Rle_dec 0 s); destruct (Rle_dec 1 s); destruct (Rle_dec 1 0);
    split; intros; lra.
Qed.

Lemma Fin_inj (x y : R) : Fin x = Fin y <-> x = y.
Proof. split; [intros H; injection H as H; exact H | intros ->; reflexivity]. Qed.

Lemma strength_one_iff (m rad : R) :
  0 < m ->
  Visuals.strengthFromMassRadius (Fin m) (Fin rad) = Fin 1
  <-> 1e-5 <= Rs_value m / Rmax rad 1e-3.
Proof.
  intros Hm. rewrite strengthFromMassRadius_Fin, Fin_inj, clamp_unit_one.
  rewrite lens_level_ge_1. unfold lens_ratio.
  unfold Rmax at 1.
  destruct (Rle_dec (Rs_value m / Rmax rad 1e-3) 1e-20); split; intros; lra.
Qed.

Lemma strength_zero_iff (m rad : R) :
  0 < m ->
  Visuals.strengthFromMassRadius (Fin m) (Fin rad) = Fin 0
  <-> Rs_value m / Rmax rad 1e-3 * (Rs_value m / Rmax rad 1e-3) <= 1e-19.
Proof.
  intros Hm. rewrite strengthFromMassRadius_Fin, Fin_inj, clamp_unit_zero.
  rewrite lens_level_le_0. unfold lens_ratio.
  pose proof (Rs_value_pos m Hm) as Hrs.
  pose proof (floor_radius_pos rad) as HD.
  assert (Hq : 0 < Rs_value m / Rmax rad 1e-3)
    by (apply Rdiv_lt_0_compat; lra).
  unfold Rmax at 1 3.
  destruct (Rle_dec (Rs_value m / Rmax rad 1e-3) 1e-20);
    split; intros; nra.
Qed.

(** X24. Where the lensing strength saturates, for a positive mass: it is
    exactly [1] if and only if the Schwarzschild radius is at least [1e-5]
    of the radius (floored at 1 mm), and exactly [0] if and only if the
    square of that ratio is at most [1e-19] (the ratio is at most
    [10^-9.5]). *)
Theorem strength_thresholds (m rad : R) :
  0 < m ->
  let ratio := Rs_value m / Rmax rad 1e-3 in
  (Visuals.strengthFromMassRadius (Fin m) (Fin rad) = Fin 1
   <-> 1e-5 <= ratio)
  /\ (Visuals.strengthFromMassRadius (Fin m) (Fin rad) = Fin 0
      <-> ratio * ratio <= 1e-19).
Proof.
  intros Hm ratio. unfold ratio.
  split; [apply strength_one_iff | apply strength_zero_iff]; exact Hm.
Qed.

Lemma strength_thresholds_witness :
  Visuals.strengthFromMassRadius (Fin 1.98847e31) (Fin 3000) = Fin 1
  /\ Visuals.strengthFromMassRadius (Fin 7.347673e22) (Fin 1.7374e6) = Fin 0.
Proof.
  split.
  - apply (strength_thresholds 1.98847e31 3000); [lra |].
    rewrite Rmax_left by lra.
    unfold Rs_value, Physics.G_value, Physics.C_value. lra.
  - apply (strength_thresholds 7.347673e22 1.7374e6); [lra |].
    rewrite Rmax_left by lra.
    unfold Rs_value, Physics.G_value, Physics.C_value. lra.
Defined.

(** X25. The strength shown for a black hole is saturated: for a
    black-hole body whose Schwarzschild radius is at least 1 mm, in any
    mode and at any altitude field, and for every multiplier up to [1e5],
    the strength computed from the mass and the resolved radius is
    exactly [1]. *)
Theorem black_hole_strength_saturated
  (body : Physics.Body) (mode : Physics.Mode) (altKm : number) (m k : R) :
  App.isBH body = true -> Physics.massKg body = Fin m ->
  1e-3 <= Rs_value m -> k <= 1e5 ->
  Visuals.strength body mode altKm (Fin k) = Fin 1.
Proof.
  intros HBH Hmass Hrs Hk.
  assert (Hm : 0 < m).
  { destruct (Rlt_dec 0 m) as [H | H]; [exact H |].
    exfalso. pose proof (Rs_value_monotone m 0 ltac:(lra)) as H0.
    unfold Rs_value at 2 in H0. unfold Rdiv in H0.
    rewrite Rmult_0_r, Rmult_0_l in H0. lra. }
  unfold Visuals.strength.
  destruct (black_hole_state body mode altKm false m k HBH Hmass Hm)
    as [-> _].
  rewrite Hmass. apply strength_one_iff; [exact Hm |].
  pose proof (clamp_ge k) as HK.
  assert (HK5 : Rmax k 1.0001 <= 1e5) by (apply Rmax_lub; lra).
  rewrite Rmax_left by nra.
  replace (Rs_value m / (Rs_value m * Rmax k 1.0001))
    with (/ Rmax k 1.0001) by (field; lra).
  replace 1e-5 with (/ 1e5) by lra.
  apply Rinv_le_contravar; lra.
Qed.

Lemma black_hole_strength_saturated_witness :
  Visuals.strength bh10 Physics.staticAltitude (Fin 0) (Fin 50) = Fin 1.
Proof.
  apply (black_hole_strength_saturated bh10 Physics.staticAltitude (Fin 0)
           (10 * Physics.M_SUN_value) 50);
    [reflexivity | reflexivity | | lra].
  unfold Rs_value, Physics.G_value, Physics.C_value, Physics.M_SUN_value. lra.
Defined.
